(** * DesktopSpeedMenu: placement engine of the playback-speed menu

    A shallow embedding of
    [src/components/player/desktop/DesktopSpeedMenu.tsx].

    Conventions of the embedding.
    - A JavaScript [number] is a double; its value is a rational ([Q]).
      Layout values are never [NaN] or infinite, so every comparison is
      the order of [Q] and [Math.min] is [Qmin].  An arithmetic operation
      on doubles is the exact operation followed by rounding to the
      nearest double, ties to even ([roundDouble]); the literal [0.7] is
      the double nearest to 7/10.  The exponent range of doubles is not
      modelled: layout values stay far from 2^1024 and 2^-1022.
    - [offsetTop], [offsetLeft], [offsetHeight] and [offsetWidth] are
      integers (the DOM type [long]); sums and differences of integers
      below 2^53 are exact in doubles and are written without rounding.
      [getBoundingClientRect] returns fractional doubles, so the
      arithmetic on its fields is rounded.
    - A DOM element is a value carrying its identity ([nodeId]), the layout
      properties the component reads, its class list and its two parent
      links ([offsetParent], [parentElement]).  The DOM is a tree, so every
      parent chain is finite: the links are structural.  Object identity
      ([===]) is equality of [nodeId].
    - A React ref is an [option]: [None] is [ref.current === null].
    - The component is a transition system: one step per browser event,
      the state being the two [useState] cells, the visibility flag owned
      by the host and the pending settle timer. *)

From Stdlib Require Import ZArith QArith Qminmax Lqa Lia.
From Stdlib Require Qcanon.
From Stdlib Require PrimFloat SpecFloat FloatOps.
From Stdlib Require Import Bool List String.
Import ListNotations.

Local Open Scope Q_scope.

(** ** The DOM as the component observes it *)

Module DOMRect.
Record t : Type := Build { top : Q; left : Q; bottom : Q; right : Q }.
End DOMRect.

#[warnings="-register-all"]
Inductive HTMLElement : Type :=
  Element {
    nodeId : nat;
    classList : list string;
    offsetTop : Q;
    offsetLeft : Q;
    offsetHeight : Q;
    offsetWidth : Q;
    getBoundingClientRect : DOMRect.t;
    offsetParent : option HTMLElement;
    parentElement : option HTMLElement
  }.

(** [a === b] on element references. *)
Definition same_node (a b : HTMLElement) : bool :=
  Nat.eqb (nodeId a) (nodeId b).

(** Induction along both parent links. *)
Fixpoint HTMLElement_parents_ind (P : HTMLElement -> Prop)
  (step : forall e,
      (forall p, offsetParent e = Some p -> P p) ->
      (forall p, parentElement e = Some p -> P p) -> P e)
  (e : HTMLElement) {struct e} : P e.
Proof.
  destruct e as [i cl ot ol oh ow r op pe].
  apply step; cbn; intros p Hp.
  - destruct op as [q|]; [|discriminate].
    injection Hp as <-. apply (HTMLElement_parents_ind P step q).
  - destruct pe as [q|]; [|discriminate].
    injection Hp as <-. apply (HTMLElement_parents_ind P step q).
Qed.

(** ** JavaScript expression forms used by the component *)

(** *** Double arithmetic *)

(** The integer nearest to [p / r], for [r > 0], ties to the even one. *)
Definition roundHalfEven (p r : Z) : Z :=
  let f := (p / r)%Z in
  match (2 * (p mod r) ?= r)%Z with
  | Lt => f
  | Gt => (f + 1)%Z
  | Eq => if Z.even f then f else (f + 1)%Z
  end.

(** The exponent [e] with [2^e <= n/d < 2^(e+1)]. *)
Definition binaryExponent (n d : positive) : Z :=
  let k := (Z.log2 (Zpos n) - Z.log2 (Zpos d))%Z in
  if (0 <=? k)%Z
  then (if (Zpos d * 2 ^ k <=? Zpos n)%Z then k else k - 1)%Z
  else (if (Zpos d <=? Zpos n * 2 ^ (- k))%Z then k else k - 1)%Z.

(** [n/d] rounded to 53 significant bits: the nearest multiple of
    [2^(e-52)]. *)
Definition roundPositive (n d : positive) : Q :=
  let q := (binaryExponent n d - 52)%Z in
  if (0 <=? q)%Z
  then inject_Z (roundHalfEven (Zpos n) (Zpos d * 2 ^ q) * 2 ^ q)
  else Qred (roundHalfEven (Zpos n * 2 ^ (- q)) (Zpos d)
             # Z.to_pos (2 ^ (- q))).

(** The double nearest to [x]. *)
Definition roundDouble (x : Q) : Q :=
  match Qnum (Qred x) with
  | Z0 => 0
  | Zpos n => roundPositive n (Qden (Qred x))
  | Zneg n => - roundPositive n (Qden (Qred x))
  end.

(** [a - b], [a + b] and [a * b] on doubles. *)
Definition jsSub (a b : Q) : Q := roundDouble (a - b).

Definition jsAdd (a b : Q) : Q := roundDouble (a + b).

Definition jsMul (a b : Q) : Q := roundDouble (a * b).

(** The literal [0.7]. *)
Definition zeroPointSeven : Q := roundDouble (7 # 10).

Definition twoTo53 : Z := 9007199254740992.

(** The value of a machine double, [None] for an infinity or [NaN]; used
    to compare [roundDouble] with the processor's arithmetic. *)
Definition valueOfDouble (f : PrimFloat.float) : option Q :=
  match FloatOps.Prim2SF f with
  | SpecFloat.S754_zero _ => Some 0
  | SpecFloat.S754_finite sign mantissa exponent =>
      let v :=
        if (0 <=? exponent)%Z
        then inject_Z (Zpos mantissa * 2 ^ exponent)
        else Qred (Zpos mantissa # Z.to_pos (2 ^ (- exponent))) in
      Some (if sign then - v else v)
  | _ => None
  end.

(** [a < b] on numbers. *)
Definition Qlt_bool (a b : Q) : bool :=
  match a ?= b with Lt => true | _ => false end.

(** [x || d] where [x] is a number or [undefined]: [undefined] and [0] are
    falsy. *)
Definition or_default (x : option Q) (d : Q) : Q :=
  match x with
  | Some v => if Qeq_bool v 0 then d else v
  | None => d
  end.

(** The result of an expression that may be an element, [null] or
    [undefined]. *)
Inductive JSRef : Type :=
| JSUndefined
| JSNull
| JSObject (e : HTMLElement).

(** [r.current?.m(...)]: [undefined] when the receiver is [null],
    otherwise the result of the call, where [None] is a [null] result. *)
Definition optional_call (receiver : option HTMLElement)
  (m : HTMLElement -> option HTMLElement) : JSRef :=
  match receiver with
  | None => JSUndefined
  | Some e => match m e with
              | None => JSNull
              | Some x => JSObject x
              end
  end.

(** [v !== null]. *)
Definition strict_not_null (v : JSRef) : bool :=
  match v with JSNull => false | _ => true end.

(** [!!r] on an element reference. *)
Definition truthy (r : option HTMLElement) : bool :=
  match r with Some _ => true | None => false end.

Definition has_class (cls : string) (e : HTMLElement) : bool :=
  existsb (String.eqb cls) (classList e).

(** [e.closest('.' + cls)]: the nearest inclusive ancestor carrying the
    class, [None] for [null]. *)
Fixpoint closest (cls : string) (e : HTMLElement) {struct e}
  : option HTMLElement :=
  if has_class cls e then Some e
  else match parentElement e with
       | Some p => closest cls p
       | None => None
       end.

(** ** Component state *)

(** The [maxHeight] style value: ['none'] or [`${n}px`]. *)
Inductive CSSLength : Type :=
| CssNone
| Px (n : Q).

Module MenuPosition.
Record t : Type :=
  Build { top : Q; left : Q; maxHeight : CSSLength; openUpward : bool }.
End MenuPosition.

(** What one event handler or effect observes: the props [isRotated] and
    [containerRef], the component's own [buttonRef], the menu element as
    the browser lays it out when the portal is rendered, [window] and
    [document].  The [offsetHeight] of [menuElement] is what the browser
    measures at that moment; it depends on the styles committed so far,
    the stored [maxHeight] among them. *)
Record Env : Type := {
  isRotated : bool;
  containerRef : option HTMLElement;
  buttonRef : option HTMLElement;
  menuElement : HTMLElement;
  innerHeight : Q;
  fullscreenElement : option HTMLElement;
  documentDefined : bool
}.

Record State : Type := {
  menuPosition : MenuPosition.t;
  isFullscreen : bool;
  showSpeedMenu : bool;
  settleTimer : bool
}.

Definition setMenuPosition (p : MenuPosition.t) (st : State) : State :=
  {| menuPosition := p;
     isFullscreen := isFullscreen st;
     showSpeedMenu := showSpeedMenu st;
     settleTimer := settleTimer st |}.

Definition setIsFullscreen (b : bool) (st : State) : State :=
  {| menuPosition := menuPosition st;
     isFullscreen := b;
     showSpeedMenu := showSpeedMenu st;
     settleTimer := settleTimer st |}.

Definition setSettleTimer (b : bool) (st : State) : State :=
  {| menuPosition := menuPosition st;
     isFullscreen := isFullscreen st;
     showSpeedMenu := showSpeedMenu st;
     settleTimer := b |}.

(** Modelled from the spec: the host's [onToggleSpeedMenu] callback is not
    part of this file; the spec describes it as the "callback invoked to
    toggle visibility", so it flips the visibility flag the host passes
    back as [showSpeedMenu]. *)
Definition onToggleSpeedMenu (st : State) : State :=
  {| menuPosition := menuPosition st;
     isFullscreen := isFullscreen st;
     showSpeedMenu := negb (showSpeedMenu st);
     settleTimer := settleTimer st |}.

(** Lines 29 and 31: the initial [useState] values; [show] is the flag the
    host starts with. *)
Definition initialState (show : bool) : State :=
  {| menuPosition := MenuPosition.Build 0 0 CssNone false;
     isFullscreen := false;
     showSpeedMenu := show;
     settleTimer := false |}.

(** ** Fullscreen tracking (lines 33-48) *)

Definition updateFullscreen (w : Env) (st : State) : State :=
  let nativeFullscreen := truthy (fullscreenElement w) in
  let windowFullscreen :=
    strict_not_null
      (optional_call (containerRef w) (closest "is-web-fullscreen")) in
  setIsFullscreen (nativeFullscreen || windowFullscreen) st.

(** ** Placement (lines 51-128) *)

(** The [const] bindings shared by the two branches of
    [calculateMenuPosition]. *)
Record Locals : Type := {
  spaceBelow : Q;
  spaceAbove : Q;
  actualMenuHeight : Q;
  openUpward : bool;
  maxHeight : Q
}.

(** Lines 61-72, the normal branch. *)
Definition normalLocals (viewportHeight : Q) (buttonRect : DOMRect.t)
  (menuRef : option HTMLElement) : Locals :=
  let spaceBelow :=
    jsSub (jsSub viewportHeight (DOMRect.bottom buttonRect)) 10 in
  let spaceAbove := jsSub (DOMRect.top buttonRect) 10 in
  let estimatedMenuHeight := 250 in
  let actualMenuHeight :=
    or_default (option_map offsetHeight menuRef) estimatedMenuHeight in
  let openUpward :=
    Qlt_bool spaceBelow (Qmin actualMenuHeight 200)
    && Qlt_bool spaceBelow spaceAbove in
  let maxHeight :=
    if openUpward
    then Qmin spaceAbove actualMenuHeight
    else Qmin spaceBelow (jsMul viewportHeight zeroPointSeven) in
  {| spaceBelow := spaceBelow;
     spaceAbove := spaceAbove;
     actualMenuHeight := actualMenuHeight;
     openUpward := openUpward;
     maxHeight := maxHeight |}.

(** Lines 91-95, the loop: [el] is non-null on entry, and the body runs
    while [el] is not the container; the next [el] is [el.offsetParent]. *)
Fixpoint accumulateOffsets (container el : HTMLElement) (top left : Q)
  {struct el} : Q * Q :=
  if negb (same_node el container) then
    let top := top + offsetTop el in
    let left := left + offsetLeft el in
    match offsetParent el with
    | Some parent => accumulateOffsets container parent top left
    | None => (top, left)
    end
  else (top, left).

(** Lines 97-110, the rotated branch, after the loop left [top]; the
    operands of the sums and differences are integers, the product with
    [0.7] is rounded. *)
Definition rotatedLocals (top : Q) (button container : HTMLElement)
  (menuRef : option HTMLElement) : Locals :=
  let buttonHeight := offsetHeight button in
  let containerHeight := offsetHeight container in
  let spaceBelow := containerHeight - (top + buttonHeight) - 20 in
  let spaceAbove := top - 20 in
  let estimatedMenuHeight := 250 in
  let actualMenuHeight :=
    or_default (option_map offsetHeight menuRef) estimatedMenuHeight in
  let openUpward :=
    Qlt_bool spaceBelow (Qmin actualMenuHeight 200)
    && Qlt_bool spaceBelow spaceAbove in
  let maxHeight :=
    if openUpward
    then Qmin spaceAbove actualMenuHeight
    else Qmin spaceBelow (jsMul containerHeight zeroPointSeven) in
  {| spaceBelow := spaceBelow;
     spaceAbove := spaceAbove;
     actualMenuHeight := actualMenuHeight;
     openUpward := openUpward;
     maxHeight := maxHeight |}.

(** [calculateMenuPosition]: the new value of the [menuPosition] cell,
    given its current value [current]; [menuRef] is [menuRef.current]. *)
Definition calculateMenuPosition (w : Env) (menuRef : option HTMLElement)
  (current : MenuPosition.t) : MenuPosition.t :=
  match buttonRef w, containerRef w with
  | Some button, Some container =>
      if negb (isRotated w) then
        let buttonRect := getBoundingClientRect button in
        let viewportHeight := innerHeight w in
        let l := normalLocals viewportHeight buttonRect menuRef in
        {| MenuPosition.top :=
             if openUpward l
             then jsSub (DOMRect.top buttonRect) 10
             else jsAdd (DOMRect.bottom buttonRect) 10;
           MenuPosition.left := DOMRect.right buttonRect;
           MenuPosition.maxHeight := Px (maxHeight l);
           MenuPosition.openUpward := openUpward l |}
      else
        let (top, left) := accumulateOffsets container button 0 0 in
        let buttonHeight := offsetHeight button in
        let buttonWidth := offsetWidth button in
        let l := rotatedLocals top button container menuRef in
        if openUpward l then
          {| MenuPosition.top := top - 10;
             MenuPosition.left := left + buttonWidth;
             MenuPosition.maxHeight := Px (maxHeight l);
             MenuPosition.openUpward := true |}
        else
          {| MenuPosition.top := top + buttonHeight + 10;
             MenuPosition.left := left + buttonWidth;
             MenuPosition.maxHeight := Px (maxHeight l);
             MenuPosition.openUpward := false |}
  | _, _ => current
  end.

(** ** Rendering (line 226) and the event loop *)

Inductive PortalTarget : Type :=
| DocumentBody
| Container (e : HTMLElement).

(** The second argument of [createPortal]:
    [(isRotated && containerRef.current) ? containerRef.current
                                         : document.body]. *)
Definition portalTarget (w : Env) : PortalTarget :=
  match (if isRotated w then containerRef w else None) with
  | Some container => Container container
  | None => DocumentBody
  end.

(** Where the menu is rendered, [None] when it is not rendered. *)
Definition render (w : Env) (st : State) : option PortalTarget :=
  if showSpeedMenu st && documentDefined w
  then Some (portalTarget w)
  else None.

(** [menuRef.current]: attached exactly while the portal is rendered. *)
Definition menuRef (w : Env) (st : State) : option HTMLElement :=
  match render w st with
  | Some _ => Some (menuElement w)
  | None => None
  end.

Definition runCalculateMenuPosition (w : Env) (st : State) : State :=
  setMenuPosition
    (calculateMenuPosition w (menuRef w st) (menuPosition st)) st.

(** Lines 144-150, run after a commit that changed [showSpeedMenu]: the
    previous run's cleanup clears the timer; when the menu is shown the
    position is computed and the 50 ms timer armed. *)
Definition openEffect (w : Env) (st : State) : State :=
  let st := setSettleTimer false st in
  if showSpeedMenu st
  then setSettleTimer true (runCalculateMenuPosition w st)
  else st.

(** Lines 152-157. *)
Definition handleToggle (w : Env) (st : State) : State :=
  let st :=
    if negb (showSpeedMenu st) then runCalculateMenuPosition w st else st in
  onToggleSpeedMenu st.

(** Lines 135-139; the handler takes no argument. *)
Definition handleScroll (st : State) : State :=
  if showSpeedMenu st then onToggleSpeedMenu st else st.

Inductive Event : Type :=
| Mount
| Click
| Scroll (scrollX scrollY : Q)
| ElementScroll (target : HTMLElement) (scrollLeft scrollTop : Q)
| FullscreenChange
| PollTick
| SettleTimeout
| HostToggle
| RotationChange.

(** One browser event followed by the commit it causes.  [Scroll] is a
    scroll of the document's viewport: the event is dispatched at the
    document and bubbles to [window].  [ElementScroll] is a scroll of a
    nested scroll container: the event is dispatched at that element and
    does not bubble, so the [window] listener of line 140, registered
    without [capture], is not called. *)
Definition step (w : Env) (ev : Event) (st : State) : State :=
  match ev with
  | Mount => openEffect w (updateFullscreen w st)
  | Click => openEffect w (handleToggle w st)
  | Scroll _ _ =>
      (* the listener is registered only while the menu is shown *)
      if showSpeedMenu st then openEffect w (handleScroll st) else st
  | ElementScroll _ _ _ => st
  | FullscreenChange | PollTick => updateFullscreen w st
  | SettleTimeout =>
      if settleTimer st
      then setSettleTimer false (runCalculateMenuPosition w st)
      else st
  | HostToggle => openEffect w (onToggleSpeedMenu st)
  | RotationChange =>
      (* [isRotated] is a dependency of the effect of lines 144-150 *)
      openEffect w st
  end.

(** A run: each event comes with the environment observed when it is
    handled. *)
Fixpoint run (trace : list (Env * Event)) (st : State) : State :=
  match trace with
  | [] => st
  | (w, ev) :: rest => run rest (step w ev st)
  end.

(** ** Reference definitions the properties are stated against *)

(** The direction rule in words: open upward exactly when the space below
    is smaller than [min(actualHeight, 200)] and the space above is larger
    than the space below. *)
Definition opensUpwardRule (above below actualHeight : Q) : Prop :=
  below < Qmin actualHeight 200 /\ above > below.

(** The locals of the branch [calculateMenuPosition] takes. *)
Definition branchLocals (w : Env) (button container : HTMLElement)
  (menuRef : option HTMLElement) : Locals :=
  if isRotated w
  then rotatedLocals (fst (accumulateOffsets container button 0 0))
         button container menuRef
  else normalLocals (innerHeight w) (getBoundingClientRect button) menuRef.

(** The height the 70% ceiling is taken of. *)
Definition availableHeight (w : Env) (container : HTMLElement) : Q :=
  if isRotated w then offsetHeight container else innerHeight w.

(** The offset-parent chain of an element, the element first. *)
Fixpoint offsetAncestors (el : HTMLElement) {struct el} : list HTMLElement :=
  el :: match offsetParent el with
        | Some parent => offsetAncestors parent
        | None => []
        end.

Fixpoint takeUntil {A : Type} (stop : A -> bool) (l : list A) : list A :=
  match l with
  | [] => []
  | x :: rest => if stop x then [] else x :: takeUntil stop rest
  end.

(** From the trigger (inclusive) up to the container (exclusive). *)
Definition offsetChain (container button : HTMLElement) : list HTMLElement :=
  takeUntil (fun e => same_node e container) (offsetAncestors button).

Definition sumOf (f : HTMLElement -> Q) (l : list HTMLElement) : Q :=
  fold_right (fun e acc => f e + acc) 0 l.

(** The height the decision uses: the measured height of the mounted
    menu, or 250 when the menu is not mounted or measures 0. *)
Definition measuredOrEstimated (menuRef : option HTMLElement) : Q :=
  match menuRef with
  | Some menu =>
      if Qeq_bool (offsetHeight menu) 0 then 250 else offsetHeight menu
  | None => 250
  end.

(** The space below the trigger, from the geometry: against the viewport
    with a margin of 10 in normal mode (double arithmetic on the
    rectangle), against the container with a margin of 20 in rotated mode
    (integer offsets summed along the offset-parent chain). *)
Definition referenceSpaceBelow (w : Env) (button container : HTMLElement)
  : Q :=
  if isRotated w
  then offsetHeight container
       - (sumOf offsetTop (offsetChain container button) + offsetHeight button)
       - 20
  else roundDouble
         (roundDouble
            (innerHeight w - DOMRect.bottom (getBoundingClientRect button))
          - 10).

(** The space above the trigger, likewise. *)
Definition referenceSpaceAbove (w : Env) (button container : HTMLElement)
  : Q :=
  if isRotated w
  then sumOf offsetTop (offsetChain container button) - 20
  else roundDouble (DOMRect.top (getBoundingClientRect button) - 10).

(** The ceiling of a downward menu as the code computes it: the double
    product of the available height and [0.7]. *)
Definition doubleCeiling (w : Env) (container : HTMLElement) : Q :=
  roundDouble (availableHeight w container * roundDouble (7 # 10)).

(** A player in which the trigger has [above] px above it and [below] px
    below it, in the coordinates of either mode, and a mounted menu
    [height] px high: the trigger is a point [above + 20] below the top of
    a container [above + below + 40] high, and [above + 10] below the top
    of a viewport [above + below + 20] high. *)
Definition containerWithSpaces (above below : Z) : HTMLElement :=
  Element 1 [] 0 0 (inject_Z (above + below + 40)) 0
    (DOMRect.Build 0 0 0 0) None None.

Definition buttonWithSpaces (above below : Z) : HTMLElement :=
  Element 2 [] (inject_Z (above + 20)) 0 0 0
    (DOMRect.Build (inject_Z (above + 10)) 0 (inject_Z (above + 10)) 0)
    (Some (containerWithSpaces above below))
    (Some (containerWithSpaces above below)).

Definition menuOfHeight (height : Z) : HTMLElement :=
  Element 3 [] 0 0 (inject_Z height) 0 (DOMRect.Build 0 0 0 0) None None.

Definition pageWithSpaces (rotated : bool) (above below height : Z) : Env :=
  {| isRotated := rotated;
     containerRef := Some (containerWithSpaces above below);
     buttonRef := Some (buttonWithSpaces above below);
     menuElement := menuOfHeight height;
     innerHeight := inject_Z (above + below + 20);
     fullscreenElement := None;
     documentDefined := true |}.

(** The clamp claim read with exact arithmetic: downward, the stored
    height is [min(spaceBelow, 70% of the available height)] and does not
    exceed that 70%. *)
Definition exactClampClaim (w : Env) (menuRef : option HTMLElement)
  (current : MenuPosition.t) (button container : HTMLElement) : Prop :=
  let p := calculateMenuPosition w menuRef current in
  let ceiling := (70 # 100) * availableHeight w container in
  exists h,
    MenuPosition.maxHeight p = Px h /\
    (MenuPosition.openUpward p = true ->
     h == Qmin (referenceSpaceAbove w button container)
            (measuredOrEstimated menuRef)) /\
    (MenuPosition.openUpward p = false ->
     h == Qmin (referenceSpaceBelow w button container) ceiling /\
     h <= ceiling).

(** The space claim read with exact arithmetic in normal mode. *)
Definition exactSpaceClaim (w : Env) (menuRef : option HTMLElement)
  (button container : HTMLElement) : Prop :=
  let l := branchLocals w button container menuRef in
  let rect := getBoundingClientRect button in
  isRotated w = false ->
  spaceBelow l == innerHeight w - DOMRect.bottom rect - 10 /\
  spaceAbove l == DOMRect.top rect - 10.

Definition isScroll (ev : Event) : bool :=
  match ev with
  | Scroll _ _ | ElementScroll _ _ _ => true
  | _ => false
  end.

(** The scroll claim read literally: any scroll event, wherever it
    happens, closes an open menu. *)
Definition anyScrollClosesClaim (w : Env) (ev : Event) (st : State) : Prop :=
  isScroll ev = true -> showSpeedMenu st = true ->
  showSpeedMenu (step w ev st) = false.

(** [menuRef.current] once the menu is shown. *)
Definition mountedMenu (w : Env) : option HTMLElement :=
  if documentDefined w then Some (menuElement w) else None.

(** The portal claim read literally: the container in rotated mode, the
    document root in normal mode, and nothing rendered while the container
    of a rotated player is missing. *)
Definition portalClaimAsStated (w : Env) (st : State) : Prop :=
  showSpeedMenu st = true -> documentDefined w = true ->
  (isRotated w = false -> render w st = Some DocumentBody) /\
  (isRotated w = true ->
   match containerRef w with
   | Some container => render w st = Some (Container container)
   | None => render w st = None
   end).

(** *** Erasure of the fullscreen signals *)

Fixpoint eraseClasses (e : HTMLElement) {struct e} : HTMLElement :=
  Element (nodeId e) [] (offsetTop e) (offsetLeft e) (offsetHeight e)
    (offsetWidth e) (getBoundingClientRect e)
    match offsetParent e with
    | Some p => Some (eraseClasses p)
    | None => None
    end
    match parentElement e with
    | Some p => Some (eraseClasses p)
    | None => None
    end.

Definition eraseRef (r : option HTMLElement) : option HTMLElement :=
  match r with Some e => Some (eraseClasses e) | None => None end.

(** Two environments with the same erasure differ at most in
    [document.fullscreenElement] and in class lists. *)
Definition eraseEnv (w : Env) : Env :=
  {| isRotated := isRotated w;
     containerRef := eraseRef (containerRef w);
     buttonRef := eraseRef (buttonRef w);
     menuElement := eraseClasses (menuElement w);
     innerHeight := innerHeight w;
     fullscreenElement := None;
     documentDefined := documentDefined w |}.

Definition eraseState (st : State) : State := setIsFullscreen false st.

Definition eraseTarget (t : PortalTarget) : PortalTarget :=
  match t with
  | DocumentBody => DocumentBody
  | Container e => Container (eraseClasses e)
  end.

Definition eraseTrace (trace : list (Env * Event)) : list (Env * Event) :=
  map (fun we => (eraseEnv (fst we), snd we)) trace.

(** What a render pass after a step shows: the stored placement, whether
    the menu is open, and the node line 226 injects the menu at. *)
Definition Observation : Type :=
  (MenuPosition.t * bool * option PortalTarget)%type.

Definition observe (w : Env) (st : State) : Observation :=
  (menuPosition st, showSpeedMenu st,
   match render w st with
   | Some t => Some (eraseTarget t)
   | None => None
   end).

Fixpoint observations (trace : list (Env * Event)) (st : State)
  : list Observation :=
  match trace with
  | [] => []
  | (w, ev) :: rest =>
      let st' := step w ev st in
      observe w st' :: observations rest st'
  end.

(** Everything in the state but the [isFullscreen] cell. *)
Definition readableState (st : State) : MenuPosition.t * bool * bool :=
  (menuPosition st, showSpeedMenu st, settleTimer st).

(** Close, then open again, in an unchanged environment; [settle] says
    whether the 50 ms timer fires after the reopening. *)
Definition closeThenOpen (w : Env) (settle : bool) : list (Env * Event) :=
  [(w, Click); (w, Click)] ++ (if settle then [(w, SettleTimeout)] else []).

(** ** Menu markup (lines 159-196) *)

(** The values the [top] and [bottom] style properties take:
    ['auto'], [`${n}px`] and [`calc(100% - ${a}px + ${b}px)`]. *)
Inductive CSSOffset : Type :=
| OffsetAuto
| OffsetPx (n : Q)
| OffsetCalc (minusPx plusPx : Q).

Record MenuStyle : Type := {
  styleTop : CSSOffset;
  styleBottom : CSSOffset;
  styleLeft : Q;
  styleTransform : string;
  styleMaxHeight : CSSLength
}.

(** Lines 163-177; [window.innerHeight] is read when the markup is
    built. *)
Definition menuStyle (w : Env) (menuPosition : MenuPosition.t) : MenuStyle :=
  {| styleTop :=
       if isRotated w
       then (if MenuPosition.openUpward menuPosition
             then OffsetAuto
             else OffsetPx (MenuPosition.top menuPosition))
       else (if MenuPosition.openUpward menuPosition
             then OffsetAuto
             else OffsetPx (MenuPosition.top menuPosition));
     styleBottom :=
       if isRotated w
       then (if MenuPosition.openUpward menuPosition
             then OffsetCalc (MenuPosition.top menuPosition) 10
             else OffsetAuto)
       else (if MenuPosition.openUpward menuPosition
             then OffsetPx
                    (jsSub (innerHeight w) (MenuPosition.top menuPosition))
             else OffsetAuto);
     styleLeft := MenuPosition.left menuPosition;
     styleTransform := "translateX(-100%)";
     styleMaxHeight := MenuPosition.maxHeight menuPosition |}.

(** The used value of an offset in a containing block [blockHeight] high;
    [None] for ['auto']. *)
Definition resolveOffset (blockHeight : Q) (o : CSSOffset) : option Q :=
  match o with
  | OffsetAuto => None
  | OffsetPx n => Some n
  | OffsetCalc a b => Some (blockHeight - a + b)
  end.

(** One button of the list, lines 184-193: the speed shown as
    [`${speed}x`], whether it carries the accent (selected) classes, and
    the argument its click passes to [onSpeedChange]. *)
Record MenuItem : Type := {
  itemSpeed : Q;
  itemSelected : bool;
  itemOnClick : Q
}.

(** Lines 183-194: [speeds.map(...)]; [playbackRate === speed] compares
    numbers. *)
Definition menuItems (playbackRate : Q) (speeds : list Q) : list MenuItem :=
  map (fun speed =>
         {| itemSpeed := speed;
            itemSelected := Qeq_bool playbackRate speed;
            itemOnClick := speed |})
      speeds.

(** The value [onSpeedChange] receives when the [i]-th button is clicked;
    [None] when there is no such button. *)
Definition clickItem (playbackRate : Q) (speeds : list Q) (i : nat)
  : option Q :=
  match nth_error (menuItems playbackRate speeds) i with
  | Some item => Some (itemOnClick item)
  | None => None
  end.

(** No two offered speeds are equal as numbers. *)
Inductive distinctSpeeds : list Q -> Prop :=
| distinct_nil : distinctSpeeds []
| distinct_cons (s : Q) (speeds : list Q) :
    (forall s', In s' speeds -> ~ s == s') ->
    distinctSpeeds speeds -> distinctSpeeds (s :: speeds).

(** ** Listeners and timers (lines 40-47, 140-141, 147-148) *)

(** What the component has registered with the browser, and which of its
    three effects hold a cleanup function from their last run.
    [timerPending] says whether the timeout set by the last run of the
    third effect has not fired yet: [clearTimeout] on a fired timer does
    nothing. *)
Record Resources : Type := {
  fullscreenListeners : nat;
  pollIntervals : nat;
  scrollListeners : nat;
  settleTimeouts : nat;
  fullscreenCleanup : bool;
  scrollCleanup : bool;
  timerCleanup : bool;
  timerPending : bool
}.

Definition noResources : Resources :=
  Build_Resources 0 0 0 0 false false false false.

(** Lines 40-42, and the cleanup of lines 44-47. *)
Definition runFullscreenEffect (r : Resources) : Resources :=
  Build_Resources (S (fullscreenListeners r)) (S (pollIntervals r))
    (scrollListeners r) (settleTimeouts r)
    true (scrollCleanup r) (timerCleanup r) (timerPending r).

Definition cleanupFullscreenEffect (r : Resources) : Resources :=
  if fullscreenCleanup r then
    Build_Resources (pred (fullscreenListeners r)) (pred (pollIntervals r))
      (scrollListeners r) (settleTimeouts r)
      false (scrollCleanup r) (timerCleanup r) (timerPending r)
  else r.

(** Lines 134-141: nothing is registered, and no cleanup returned, when
    the menu is hidden. *)
Definition runScrollEffect (show : bool) (r : Resources) : Resources :=
  if negb show then
    Build_Resources (fullscreenListeners r) (pollIntervals r)
      (scrollListeners r) (settleTimeouts r)
      (fullscreenCleanup r) false (timerCleanup r) (timerPending r)
  else
    Build_Resources (fullscreenListeners r) (pollIntervals r)
      (S (scrollListeners r)) (settleTimeouts r)
      (fullscreenCleanup r) true (timerCleanup r) (timerPending r).

Definition cleanupScrollEffect (r : Resources) : Resources :=
  if scrollCleanup r then
    Build_Resources (fullscreenListeners r) (pollIntervals r)
      (pred (scrollListeners r)) (settleTimeouts r)
      (fullscreenCleanup r) false (timerCleanup r) (timerPending r)
  else r.

(** Lines 145-149, the timer part. *)
Definition runTimerEffect (show : bool) (r : Resources) : Resources :=
  if show then
    Build_Resources (fullscreenListeners r) (pollIntervals r)
      (scrollListeners r) (S (settleTimeouts r))
      (fullscreenCleanup r) (scrollCleanup r) true true
  else
    Build_Resources (fullscreenListeners r) (pollIntervals r)
      (scrollListeners r) (settleTimeouts r)
      (fullscreenCleanup r) (scrollCleanup r) false (timerPending r).

Definition cleanupTimerEffect (r : Resources) : Resources :=
  if timerCleanup r then
    Build_Resources (fullscreenListeners r) (pollIntervals r)
      (scrollListeners r)
      (if timerPending r then pred (settleTimeouts r) else settleTimeouts r)
      (fullscreenCleanup r) (scrollCleanup r) false false
  else r.

(** The 50 ms timeout fires and is gone. *)
Definition fireTimer (r : Resources) : Resources :=
  if timerPending r then
    Build_Resources (fullscreenListeners r) (pollIntervals r)
      (scrollListeners r) (pred (settleTimeouts r))
      (fullscreenCleanup r) (scrollCleanup r) (timerCleanup r) false
  else r.

(** The effects React runs after the commit that follows [ev], the state
    going from [before] to [after]: all three on mount; the scroll and
    timer effects when [showSpeedMenu] changed (cleanups first); the timer
    effect alone when [isRotated] changed. *)
Definition commitEffects (ev : Event) (before after : State)
  (r : Resources) : Resources :=
  match ev with
  | Mount =>
      runTimerEffect (showSpeedMenu after)
        (runScrollEffect (showSpeedMenu after) (runFullscreenEffect r))
  | RotationChange =>
      runTimerEffect (showSpeedMenu after) (cleanupTimerEffect r)
  | SettleTimeout => fireTimer r
  | Click | Scroll _ _ | ElementScroll _ _ _ | HostToggle
  | FullscreenChange | PollTick =>
      if Bool.eqb (showSpeedMenu before) (showSpeedMenu after) then r
      else
        runTimerEffect (showSpeedMenu after)
          (runScrollEffect (showSpeedMenu after)
             (cleanupTimerEffect (cleanupScrollEffect r)))
  end.

(** Unmounting runs every pending cleanup. *)
Definition unmount (r : Resources) : Resources :=
  cleanupTimerEffect (cleanupScrollEffect (cleanupFullscreenEffect r)).

Definition lifecycleStep (w : Env) (ev : Event) (sr : State * Resources)
  : State * Resources :=
  let st' := step w ev (fst sr) in
  (st', commitEffects ev (fst sr) st' (snd sr)).

Fixpoint lifecycleRun (trace : list (Env * Event)) (sr : State * Resources)
  : State * Resources :=
  match trace with
  | [] => sr
  | (w, ev) :: rest => lifecycleRun rest (lifecycleStep w ev sr)
  end.

(** The component mounted in [w0] with the host's flag [show], then
    handling [trace]. *)
Definition mountedThen (show : bool) (w0 : Env) (trace : list (Env * Event))
  : State * Resources :=
  lifecycleRun trace
    (lifecycleStep w0 Mount (initialState show, noResources)).

Definition isMount (ev : Event) : bool :=
  match ev with Mount => true | _ => false end.

Definition countOf (b : bool) : nat := if b then 1%nat else 0%nat.

(** While mounted: one fullscreen listener and one poll interval, each
    with its cleanup pending; a scroll listener, with its cleanup, exactly
    while the menu is shown; a timeout exactly while the state's timer is
    armed, which happens only while the menu is shown. *)
Definition lifecycleInvariant (sr : State * Resources) : Prop :=
  let st := fst sr in
  let r := snd sr in
  fullscreenListeners r = 1%nat /\
  pollIntervals r = 1%nat /\
  fullscreenCleanup r = true /\
  scrollListeners r = countOf (showSpeedMenu st) /\
  scrollCleanup r = showSpeedMenu st /\
  settleTimeouts r = countOf (settleTimer st) /\
  timerPending r = settleTimer st /\
  timerCleanup r = showSpeedMenu st /\
  (settleTimer st = true -> showSpeedMenu st = true).

Definition noMount (trace : list (Env * Event)) : bool :=
  forallb (fun we => negb (isMount (snd we))) trace.

(** The container and its ancestors along [parentElement]. *)
Fixpoint parentChain (e : HTMLElement) {struct e} : list HTMLElement :=
  e :: match parentElement e with
       | Some p => parentChain p
       | None => []
       end.

(** ** Concrete pages used in examples *)

Definition plainElement (id : nat) (classes : list string)
  (oTop oLeft oHeight oWidth : Q) (rect : DOMRect.t)
  (oParent parent : option HTMLElement) : HTMLElement :=
  Element id classes oTop oLeft oHeight oWidth rect oParent parent.

Definition zeroRect : DOMRect.t := DOMRect.Build 0 0 0 0.

(** A 600 px high player container, a controls bar at (500, 0) inside it
    and a 40 x 48 trigger at (10, 300) inside the bar. *)
Definition playerBox (classes : list string) : HTMLElement :=
  plainElement 1 classes 0 0 600 1000 (DOMRect.Build 0 0 600 1000) None None.

Definition controlsBar (classes : list string) : HTMLElement :=
  plainElement 2 [] 500 0 60 1000 (DOMRect.Build 500 0 560 1000)
    (Some (playerBox classes)) (Some (playerBox classes)).

Definition speedButton (classes : list string) : HTMLElement :=
  plainElement 3 [] 10 300 40 48 (DOMRect.Build 750 300 750 348)
    (Some (controlsBar classes)) (Some (controlsBar classes)).

Definition speedMenu : HTMLElement :=
  plainElement 4 [] 0 0 180 72 zeroRect None None.

Definition page (rotated : bool) (classes : list string)
  (fullscreen : option HTMLElement) : Env :=
  {| isRotated := rotated;
     containerRef := Some (playerBox classes);
     buttonRef := Some (speedButton classes);
     menuElement := speedMenu;
     innerHeight := 800;
     fullscreenElement := fullscreen;
     documentDefined := true |}.

(** The same page before the host attached the container ref. *)
Definition pageWithoutContainer (rotated : bool) : Env :=
  {| isRotated := rotated;
     containerRef := None;
     buttonRef := Some (speedButton []);
     menuElement := speedMenu;
     innerHeight := 800;
     fullscreenElement := None;
     documentDefined := true |}.

(** A trigger near the top: directly inside the container at (50, 20),
    its rectangle spanning y = 100 to y = 140. *)
Definition topButton : HTMLElement :=
  plainElement 5 [] 50 20 40 48 (DOMRect.Build 100 20 140 68)
    (Some (playerBox [])) (Some (playerBox [])).

Definition pageWithTopButton (rotated : bool) : Env :=
  {| isRotated := rotated;
     containerRef := Some (playerBox []);
     buttonRef := Some topButton;
     menuElement := speedMenu;
     innerHeight := 800;
     fullscreenElement := None;
     documentDefined := true |}.

(** Another page whose trigger has the same bounding rectangle as
    [speedButton] in a viewport of the same height, and nothing else in
    common with [page]. *)
Definition strayButton : HTMLElement :=
  plainElement 9 [] 1 2 3 4 (DOMRect.Build 750 300 750 348) None None.

Definition strayPage : Env :=
  {| isRotated := false;
     containerRef := Some speedMenu;
     buttonRef := Some strayButton;
     menuElement := speedMenu;
     innerHeight := 800;
     fullscreenElement := None;
     documentDefined := false |}.

(** A mounted menu 320 px high. *)
Definition tallMenu : HTMLElement :=
  plainElement 6 [] 0 0 320 72 zeroRect None None.

(** A viewport 733 px high with the trigger near the top. *)
Definition page733 : Env :=
  {| isRotated := false;
     containerRef := Some (playerBox []);
     buttonRef := Some topButton;
     menuElement := speedMenu;
     innerHeight := 733;
     fullscreenElement := None;
     documentDefined := true |}.

(** A trigger whose rectangle has the fractional edge 100.3 (the nearest
    double), in a viewport 900 px high. *)
Definition fractionalButton : HTMLElement :=
  plainElement 7 [] 10 300 40 48
    (DOMRect.Build (roundDouble (1003 # 10)) 300 (roundDouble (1003 # 10)) 348)
    (Some (controlsBar [])) (Some (controlsBar [])).

Definition fractionalPage : Env :=
  {| isRotated := false;
     containerRef := Some (playerBox []);
     buttonRef := Some fractionalButton;
     menuElement := speedMenu;
     innerHeight := 900;
     fullscreenElement := None;
     documentDefined := true |}.

(** The same page rendered without a document. *)
Definition pageWithoutDocument : Env :=
  {| isRotated := true;
     containerRef := Some (playerBox []);
     buttonRef := Some (speedButton []);
     menuElement := speedMenu;
     innerHeight := 800;
     fullscreenElement := None;
     documentDefined := false |}.

Definition openState : State :=
  {| menuPosition := MenuPosition.Build 0 0 CssNone false;
     isFullscreen := false;
     showSpeedMenu := true;
     settleTimer := true |}.

(** * Properties *)

(** ** The model on concrete pages *)

(** Viewport 800, trigger rectangle at y = 750, menu not mounted: 40 px
    below and 740 px above, so the menu opens upward, clamped to the
    estimated 250 px. *)
Example normal_mode_near_bottom :
  calculateMenuPosition (page false [] None) None
    (MenuPosition.Build 0 0 CssNone false)
  = MenuPosition.Build 740 348 (Px 250) true.
Proof. vm_compute. reflexivity. Qed.

(** Rotated, container 600 high, trigger at accumulated top 510 and 40
    high, menu measured at 180: 30 px below and 490 px above. *)
Example rotated_mode_near_bottom :
  calculateMenuPosition (page true [] None) (Some speedMenu)
    (MenuPosition.Build 0 0 CssNone false)
  = MenuPosition.Build 500 348 (Px 180) true.
Proof. vm_compute. reflexivity. Qed.

(** Rotated, trigger directly inside the container at top 50: 490 px
    below, so the menu opens downward, clamped to 70% of 600. *)
Example rotated_mode_near_top :
  calculateMenuPosition
    {| isRotated := true;
       containerRef := Some (playerBox []);
       buttonRef :=
         Some (plainElement 5 [] 50 20 40 48 zeroRect
                 (Some (playerBox [])) (Some (playerBox [])));
       menuElement := speedMenu;
       innerHeight := 800;
       fullscreenElement := None;
       documentDefined := true |}
    None (MenuPosition.Build 0 0 CssNone false)
  = MenuPosition.Build 100 68 (Px 420) false.
Proof. vm_compute. reflexivity. Qed.

(** ** Rounding to the nearest double *)

Lemma roundHalfEven_floor (p r : Z) :
  (p / r <= roundHalfEven p r <= p / r + 1)%Z.
Proof.
  unfold roundHalfEven.
  destruct (2 * (p mod r) ?= r)%Z; [destruct (Z.even (p / r))| |]; lia.
Qed.

Lemma binaryExponent_le (n d : positive) :
  (binaryExponent n d <= Z.log2 (Zpos n) - Z.log2 (Zpos d))%Z.
Proof.
  unfold binaryExponent.
  destruct (0 <=? _)%Z; [destruct (_ <=? _)%Z | destruct (_ <=? _)%Z]; lia.
Qed.

Lemma scaled_denominator_le (n d : positive) (q : Z) :
  (0 <= q)%Z ->
  (q <= Z.log2 (Zpos n) - Z.log2 (Zpos d) - 52)%Z ->
  (Zpos d * 2 ^ q <= Zpos n)%Z.
Proof.
  intros Hq Hle.
  pose proof (Z.log2_spec (Zpos n) eq_refl) as [Hn _].
  pose proof (Z.log2_spec (Zpos d) eq_refl) as [_ Hd].
  pose proof (Z.log2_nonneg (Zpos d)) as Hld.
  assert (Hpow : (2 ^ (Z.succ (Z.log2 (Zpos d))) * 2 ^ q
                  <= 2 ^ Z.log2 (Zpos n))%Z).
  { rewrite <- Z.pow_add_r by lia. apply Z.pow_le_mono_r; lia. }
  assert (Hq2 : (0 < 2 ^ q)%Z) by (apply Z.pow_pos_nonneg; lia).
  nia.
Qed.

Lemma scaled_numerator_ge (n d : positive) (q : Z) :
  (q < 0)%Z ->
  (q <= Z.log2 (Zpos n) - Z.log2 (Zpos d) - 52)%Z ->
  (Zpos d <= Zpos n * 2 ^ (- q))%Z.
Proof.
  intros Hq Hle.
  pose proof (Z.log2_spec (Zpos n) eq_refl) as [Hn _].
  pose proof (Z.log2_spec (Zpos d) eq_refl) as [_ Hd].
  pose proof (Z.log2_nonneg (Zpos d)) as Hld.
  pose proof (Z.log2_nonneg (Zpos n)) as Hln.
  assert (Hpow : (2 ^ (Z.succ (Z.log2 (Zpos d)))
                  <= 2 ^ Z.log2 (Zpos n) * 2 ^ (- q))%Z).
  { rewrite <- Z.pow_add_r by lia. apply Z.pow_le_mono_r; lia. }
  assert (Hq2 : (0 < 2 ^ (- q))%Z) by (apply Z.pow_pos_nonneg; lia).
  nia.
Qed.

Lemma roundPositive_pos (n d : positive) : 0 < roundPositive n d.
Proof.
  unfold roundPositive.
  pose proof (binaryExponent_le n d) as He.
  set (q := (binaryExponent n d - 52)%Z) in *.
  destruct (0 <=? q)%Z eqn:Hq.
  - apply Z.leb_le in Hq.
    pose proof (scaled_denominator_le n d q Hq ltac:(lia)) as Hle.
    assert (Hq2 : (0 < 2 ^ q)%Z) by (apply Z.pow_pos_nonneg; lia).
    pose proof (roundHalfEven_floor (Zpos n) (Zpos d * 2 ^ q)) as [Hf _].
    assert (H1 : (1 <= Zpos n / (Zpos d * 2 ^ q))%Z).
    { apply Z.div_le_lower_bound; lia. }
    assert (Hm : (0 < roundHalfEven (Zpos n) (Zpos d * 2 ^ q) * 2 ^ q)%Z).
    { apply Z.mul_pos_pos; lia. }
    unfold Qlt, inject_Z. cbn [Qnum Qden]. lia.
  - apply Z.leb_gt in Hq.
    pose proof (scaled_numerator_ge n d q Hq ltac:(lia)) as Hle.
    pose proof (roundHalfEven_floor (Zpos n * 2 ^ (- q)) (Zpos d)) as [Hf _].
    assert (H1 : (1 <= Zpos n * 2 ^ (- q) / Zpos d)%Z).
    { apply Z.div_le_lower_bound; lia. }
    rewrite Qred_correct. unfold Qlt. cbn [Qnum Qden]. lia.
Qed.

Lemma roundDouble_pos (x : Q) : 0 < x -> 0 < roundDouble x.
Proof.
  intro Hx. unfold roundDouble.
  rewrite <- (Qred_correct x) in Hx.
  destruct (Qred x) as [num den]. cbn [Qnum Qden].
  destruct num as [|n|n].
  - exfalso. revert Hx. unfold Qlt. cbn. lia.
  - apply roundPositive_pos.
  - exfalso. revert Hx. unfold Qlt. cbn. lia.
Qed.

Lemma roundDouble_compat (x y : Q) :
  x == y -> roundDouble x = roundDouble y.
Proof.
  intro H. unfold roundDouble. now rewrite (Qred_complete x y H).
Qed.

Lemma roundHalfEven_near (p r : Z) :
  (0 < r)%Z ->
  (2 * (roundHalfEven p r * r - p) <= r /\
   2 * (p - roundHalfEven p r * r) <= r)%Z.
Proof.
  intro Hr. unfold roundHalfEven.
  pose proof (Z.div_mod p r ltac:(lia)) as Hdm.
  pose proof (Z.mod_pos_bound p r Hr) as Hmod.
  rewrite (Z.mul_comm r) in Hdm.
  destruct (Z.compare_spec (2 * (p mod r)) r) as [Hc|Hc|Hc];
    [destruct (Z.even (p / r)) | | ];
    rewrite ?Z.mul_add_distr_r, ?Z.mul_1_l;
    set (fr := (p / r * r)%Z) in *; clearbody fr;
    set (m := (p mod r)%Z) in *; clearbody m; lia.
Qed.

Lemma binaryExponent_lower (n d : positive) :
  let e := binaryExponent n d in
  ((0 <= e -> Zpos d * 2 ^ e <= Zpos n) /\
   (e < 0 -> Zpos d <= Zpos n * 2 ^ (- e)))%Z.
Proof.
  cbv zeta. unfold binaryExponent.
  pose proof (Z.log2_spec (Zpos n) eq_refl) as [Hn _].
  pose proof (Z.log2_spec (Zpos d) eq_refl) as [_ Hd].
  pose proof (Z.log2_nonneg (Zpos d)) as Hld.
  pose proof (Z.log2_nonneg (Zpos n)) as Hln.
  set (ln := Z.log2 (Zpos n)) in *. set (ld := Z.log2 (Zpos d)) in *.
  destruct (0 <=? ln - ld)%Z eqn:Hk.
  - apply Z.leb_le in Hk.
    destruct (Zpos d * 2 ^ (ln - ld) <=? Zpos n)%Z eqn:Hc.
    + apply Z.leb_le in Hc. split; [intros _; exact Hc | lia].
    + split.
      * intro He.
        assert (Hpow : (2 ^ Z.succ ld * 2 ^ (ln - ld - 1) = 2 ^ ln)%Z).
        { rewrite <- Z.pow_add_r by lia. f_equal. lia. }
        assert (Hp : (0 < 2 ^ (ln - ld - 1))%Z)
          by (apply Z.pow_pos_nonneg; lia).
        nia.
      * intro He. assert (Hk0 : (ln - ld = 0)%Z) by lia.
        replace (- (ln - ld - 1))%Z with 1%Z by lia.
        assert (Hpow : (2 ^ Z.succ ld = 2 ^ ln * 2)%Z).
        { replace (Z.succ ld) with (ln + 1)%Z by lia.
          rewrite Z.pow_add_r by lia. reflexivity. }
        change (2 ^ 1)%Z with 2%Z. lia.
  - apply Z.leb_gt in Hk.
    destruct (Zpos d <=? Zpos n * 2 ^ (- (ln - ld)))%Z eqn:Hc.
    + apply Z.leb_le in Hc. split; [lia | intros _; exact Hc].
    + split; [lia|]. intros _.
      assert (Hpow : (2 ^ ln * 2 ^ (- (ln - ld - 1)) = 2 ^ Z.succ ld)%Z).
      { rewrite <- Z.pow_add_r by lia. f_equal. lia. }
      assert (Hp : (0 < 2 ^ (- (ln - ld - 1)))%Z)
        by (apply Z.pow_pos_nonneg; lia).
      nia.
Qed.

Lemma roundPositive_error (n d : positive) :
  (Zpos n # d) * inject_Z (twoTo53 - 1)
  <= roundPositive n d * inject_Z twoTo53 /\
  roundPositive n d * inject_Z twoTo53 <= (Zpos n # d) * inject_Z (twoTo53 + 1).
Proof.
  unfold roundPositive.
  pose proof (binaryExponent_lower n d) as [Hpos Hneg]. cbv zeta in Hpos, Hneg.
  set (e := binaryExponent n d) in *.
  destruct (0 <=? e - 52)%Z eqn:Hq.
  - apply Z.leb_le in Hq.
    assert (Hp : (0 < 2 ^ (e - 52))%Z) by (apply Z.pow_pos_nonneg; lia).
    pose proof (roundHalfEven_near (Zpos n) (Zpos d * 2 ^ (e - 52))
                  ltac:(lia)) as [Hup Hdown].
    specialize (Hpos ltac:(lia)).
    assert (He : (2 ^ e = 2 ^ (e - 52) * 4503599627370496)%Z).
    { replace e with ((e - 52) + 52)%Z at 1 by lia.
      rewrite Z.pow_add_r by lia. reflexivity. }
    set (m := roundHalfEven (Zpos n) (Zpos d * 2 ^ (e - 52))) in *.
    set (P := (2 ^ (e - 52))%Z) in *.
    unfold Qle, Qmult, inject_Z, twoTo53. cbn [Qnum Qden].
    rewrite ?Pos.mul_1_r, ?Z.mul_1_r. split; nia.
  - apply Z.leb_gt in Hq.
    assert (Hp : (0 < 2 ^ (- (e - 52)))%Z) by (apply Z.pow_pos_nonneg; lia).
    pose proof (roundHalfEven_near (Zpos n * 2 ^ (- (e - 52))) (Zpos d)
                  ltac:(lia)) as [Hup Hdown].
    assert (Hlow : (Zpos d * 9007199254740992
                    <= Zpos n * (2 * 2 ^ (- (e - 52))))%Z).
    { destruct (Z_lt_le_dec e 0) as [He|He].
      - specialize (Hneg He).
        assert (Hs : (2 * 2 ^ (- (e - 52))
                      = 2 ^ (- e) * 9007199254740992)%Z).
        { replace (- (e - 52))%Z with (- e + 52)%Z by lia.
          rewrite Z.pow_add_r by lia.
          change (2 ^ 52)%Z with 4503599627370496%Z. lia. }
        rewrite Hs. nia.
      - specialize (Hpos He).
        assert (Hs : (2 ^ e * (2 * 2 ^ (- (e - 52))) = 9007199254740992)%Z).
        { replace (2 * 2 ^ (- (e - 52)))%Z with (2 ^ (53 - e))%Z.
          - rewrite <- Z.pow_add_r by lia.
            replace (e + (53 - e))%Z with 53%Z by lia. reflexivity.
          - replace (53 - e)%Z with (1 + - (e - 52))%Z by lia.
            rewrite Z.pow_add_r by lia. reflexivity. }
        assert (He0 : (0 < 2 ^ e)%Z) by (apply Z.pow_pos_nonneg; lia).
        nia. }
    set (m := roundHalfEven (Zpos n * 2 ^ (- (e - 52))) (Zpos d)) in *.
    set (P := (2 ^ (- (e - 52)))%Z) in *.
    rewrite Qred_correct.
    unfold Qle, Qmult, inject_Z, twoTo53. cbn [Qnum Qden].
    rewrite ?Pos.mul_1_r, ?Z.mul_1_r.
    rewrite Z2Pos.id by lia. split; nia.
Qed.

Lemma roundDouble_error (x : Q) :
  0 < x ->
  x * inject_Z (twoTo53 - 1) <= roundDouble x * inject_Z twoTo53 /\
  roundDouble x * inject_Z twoTo53 <= x * inject_Z (twoTo53 + 1).
Proof.
  intro Hx. unfold roundDouble.
  pose proof (Qred_correct x) as Hred.
  set (y := Qred x) in *. clearbody y.
  rewrite <- Hred in Hx. rewrite <- Hred. clear Hred x.
  destruct y as [num den]. cbn [Qnum Qden].
  destruct num as [|n|n].
  - exfalso. revert Hx. unfold Qlt. cbn. lia.
  - apply roundPositive_error.
  - exfalso. revert Hx. unfold Qlt. cbn. lia.
Qed.

Lemma roundHalfEven_unit (p : Z) : roundHalfEven p 1 = p.
Proof.
  unfold roundHalfEven. rewrite Z.mod_1_r, Z.div_1_r. reflexivity.
Qed.

Lemma binaryExponent_integer (n : positive) :
  binaryExponent n 1 = Z.log2 (Zpos n).
Proof.
  unfold binaryExponent. change (Z.log2 1) with 0%Z. rewrite Z.sub_0_r.
  pose proof (Z.log2_nonneg (Zpos n)) as Hln.
  pose proof (Z.log2_spec (Zpos n) eq_refl) as [Hn _].
  destruct (0 <=? Z.log2 (Zpos n))%Z eqn:Hk; [|apply Z.leb_gt in Hk; lia].
  destruct (1 * 2 ^ Z.log2 (Zpos n) <=? Zpos n)%Z eqn:Hc; [reflexivity|].
  apply Z.leb_gt in Hc. lia.
Qed.

Lemma roundPositive_integer (n : positive) :
  (Zpos n < twoTo53)%Z -> roundPositive n 1 == inject_Z (Zpos n).
Proof.
  intro Hn. unfold roundPositive. rewrite binaryExponent_integer.
  assert (Hlog : (Z.log2 (Zpos n) < 53)%Z).
  { apply Z.log2_lt_pow2; [reflexivity | exact Hn]. }
  pose proof (Z.log2_nonneg (Zpos n)) as Hln.
  destruct (0 <=? Z.log2 (Zpos n) - 52)%Z eqn:Hq.
  - apply Z.leb_le in Hq.
    replace (Z.log2 (Zpos n) - 52)%Z with 0%Z by lia.
    change (2 ^ 0)%Z with 1%Z. rewrite Z.mul_1_r, roundHalfEven_unit.
    reflexivity.
  - apply Z.leb_gt in Hq. rewrite roundHalfEven_unit, Qred_correct.
    assert (Hp : (0 < 2 ^ (- (Z.log2 (Zpos n) - 52)))%Z)
      by (apply Z.pow_pos_nonneg; lia).
    unfold Qeq, inject_Z. cbn [Qnum Qden]. rewrite Z2Pos.id by lia. lia.
Qed.

Lemma roundDouble_integer (z : Z) :
  (- twoTo53 < z < twoTo53)%Z -> roundDouble (inject_Z z) == inject_Z z.
Proof.
  intro Hz. unfold roundDouble.
  rewrite (Qcanon.Qred_identity (inject_Z z)) by apply Z.gcd_1_r.
  cbn [inject_Z Qnum Qden]. destruct z as [|n|n].
  - reflexivity.
  - apply roundPositive_integer. lia.
  - rewrite (roundPositive_integer n) by lia. reflexivity.
Qed.

(** A difference of integers below 2^53 is computed exactly. *)
Lemma roundDouble_difference (a b : Q) (x y : Z) :
  a == inject_Z x -> b == inject_Z y ->
  (- twoTo53 < x - y < twoTo53)%Z ->
  roundDouble (a - b) == a - b.
Proof.
  intros Ha Hb Hrange.
  assert (Hd : a - b == inject_Z (x - y)).
  { rewrite Ha, Hb. unfold Qeq. cbn. lia. }
  rewrite (roundDouble_compat _ _ Hd), Hd.
  now apply roundDouble_integer.
Qed.

Lemma zeroPointSeven_value :
  zeroPointSeven = 3152519739159347 # 4503599627370496.
Proof. vm_compute. reflexivity. Qed.

Lemma zeroPointSeven_pos : 0 < zeroPointSeven.
Proof. rewrite zeroPointSeven_value. reflexivity. Qed.

(** ** Agreement with machine doubles *)

(** [0.7], [720 * 0.7], [733 * 0.7], [900 - 100.3 - 10] and [507.3 + 10]
    as the processor computes them (the literals written in hexadecimal)
    and as [roundDouble] does. *)
Module MachineDoubles.
Import PrimFloat.

Example literal_0_7_agrees :
  valueOfDouble 0x1.6666666666666p-1%float = Some zeroPointSeven.
Proof. vm_compute. reflexivity. Qed.

Example product_720_agrees :
  valueOfDouble (PrimFloat.mul 720 0x1.6666666666666p-1)%float
  = Some (jsMul 720 zeroPointSeven).
Proof. vm_compute. reflexivity. Qed.

Example product_733_agrees :
  valueOfDouble (PrimFloat.mul 733 0x1.6666666666666p-1)%float
  = Some (jsMul 733 zeroPointSeven).
Proof. vm_compute. reflexivity. Qed.

Example difference_900_agrees :
  valueOfDouble
    (PrimFloat.sub (PrimFloat.sub 900 0x1.9133333333333p+6) 10)%float
  = Some (jsSub (jsSub 900 (roundDouble (1003 # 10))) 10).
Proof. vm_compute. reflexivity. Qed.

Example sum_507_agrees :
  valueOfDouble (PrimFloat.add 0x1.fb4cccccccccdp+8 10)%float
  = Some (jsAdd (roundDouble (5073 # 10)) 10).
Proof. vm_compute. reflexivity. Qed.

Example third_agrees :
  valueOfDouble (PrimFloat.div 1 3)%float = Some (roundDouble (1 # 3)).
Proof. vm_compute. reflexivity. Qed.

End MachineDoubles.

(** ** Helper lemmas *)

Lemma Qlt_bool_iff (a b : Q) : Qlt_bool a b = true <-> a < b.
Proof.
  unfold Qlt_bool. rewrite Qlt_alt.
  destruct (a ?= b); split; intro H; try reflexivity; discriminate.
Qed.

Lemma or_default_undefined (d : Q) : or_default None d = d.
Proof. reflexivity. Qed.

Lemma or_default_nonzero (v d : Q) : ~ v == 0 -> or_default (Some v) d = v.
Proof.
  intro Hv. unfold or_default.
  destruct (Qeq_bool v 0) eqn:E; [|reflexivity].
  apply Qeq_bool_iff in E. contradiction.
Qed.

Lemma or_default_zero (v d : Q) : v == 0 -> or_default (Some v) d = d.
Proof.
  intro Hv. unfold or_default.
  apply Qeq_bool_iff in Hv. now rewrite Hv.
Qed.

(** Both branches compute the direction from their own locals with the
    same expression. *)
Lemma openUpward_normalLocals (vh : Q) (r : DOMRect.t)
  (m : option HTMLElement) :
  let l := normalLocals vh r m in
  openUpward l
  = Qlt_bool (spaceBelow l) (Qmin (actualMenuHeight l) 200)
    && Qlt_bool (spaceBelow l) (spaceAbove l).
Proof. reflexivity. Qed.

Lemma openUpward_rotatedLocals (t : Q) (b c : HTMLElement)
  (m : option HTMLElement) :
  let l := rotatedLocals t b c m in
  openUpward l
  = Qlt_bool (spaceBelow l) (Qmin (actualMenuHeight l) 200)
    && Qlt_bool (spaceBelow l) (spaceAbove l).
Proof. reflexivity. Qed.

Lemma openUpward_branchLocals (w : Env) (b c : HTMLElement)
  (m : option HTMLElement) :
  let l := branchLocals w b c m in
  openUpward l
  = Qlt_bool (spaceBelow l) (Qmin (actualMenuHeight l) 200)
    && Qlt_bool (spaceBelow l) (spaceAbove l).
Proof.
  unfold branchLocals. destruct (isRotated w).
  - apply openUpward_rotatedLocals.
  - apply openUpward_normalLocals.
Qed.

Lemma actualMenuHeight_branchLocals (w : Env) (b c : HTMLElement)
  (m : option HTMLElement) :
  actualMenuHeight (branchLocals w b c m)
  = or_default (option_map offsetHeight m) 250.
Proof. unfold branchLocals. now destruct (isRotated w). Qed.

(** The direction and the height clamp that [calculateMenuPosition] stores
    are those of the locals of the branch taken. *)
Lemma calculateMenuPosition_decision (w : Env) (m : option HTMLElement)
  (cur : MenuPosition.t) (b c : HTMLElement) :
  buttonRef w = Some b -> containerRef w = Some c ->
  let p := calculateMenuPosition w m cur in
  let l := branchLocals w b c m in
  MenuPosition.openUpward p = openUpward l /\
  MenuPosition.maxHeight p = Px (maxHeight l).
Proof.
  intros Hb Hc. unfold calculateMenuPosition, branchLocals.
  rewrite Hb, Hc. destruct (isRotated w); cbn [negb].
  - destruct (accumulateOffsets c b 0 0) as [t lft]. cbn [fst].
    destruct (openUpward (rotatedLocals t b c m)) eqn:E; cbn; now rewrite ?E.
  - cbn. split; reflexivity.
Qed.

Lemma maxHeight_branchLocals (w : Env) (b c : HTMLElement)
  (m : option HTMLElement) :
  let l := branchLocals w b c m in
  maxHeight l
  = if openUpward l
    then Qmin (spaceAbove l) (actualMenuHeight l)
    else Qmin (spaceBelow l) (jsMul (availableHeight w c) zeroPointSeven).
Proof.
  unfold branchLocals, availableHeight. now destruct (isRotated w).
Qed.

(** ** Offset accumulation *)

Lemma offsetChain_unfold (c e : HTMLElement) :
  offsetChain c e
  = if same_node e c then []
    else e :: match offsetParent e with
              | Some p => offsetChain c p
              | None => []
              end.
Proof.
  unfold offsetChain. destruct e as [i cl ot ol oh ow r op pe].
  cbn [offsetAncestors takeUntil offsetParent].
  destruct (same_node _ c); [reflexivity|].
  now destruct op.
Qed.

Lemma accumulateOffsets_unfold (c e : HTMLElement) (t l : Q) :
  accumulateOffsets c e t l
  = if negb (same_node e c) then
      match offsetParent e with
      | Some p => accumulateOffsets c p (t + offsetTop e) (l + offsetLeft e)
      | None => (t + offsetTop e, l + offsetLeft e)
      end
    else (t, l).
Proof. now destruct e. Qed.

Lemma sumOf_cons (f : HTMLElement -> Q) (x : HTMLElement)
  (l : list HTMLElement) : sumOf f (x :: l) = f x + sumOf f l.
Proof. reflexivity. Qed.

Lemma sumOf_nil (f : HTMLElement -> Q) : sumOf f [] = 0.
Proof. reflexivity. Qed.

(** The loop adds, to whatever it starts from, the offsets along the
    chain. *)
Lemma accumulateOffsets_from (c e : HTMLElement) :
  forall t l,
    fst (accumulateOffsets c e t l) == t + sumOf offsetTop (offsetChain c e) /\
    snd (accumulateOffsets c e t l) == l + sumOf offsetLeft (offsetChain c e).
Proof.
  induction e as [e IHo _] using HTMLElement_parents_ind.
  intros t l.
  rewrite accumulateOffsets_unfold, offsetChain_unfold.
  destruct (same_node e c); cbn [negb].
  - rewrite !sumOf_nil. cbn [fst snd]. split; ring.
  - rewrite !sumOf_cons. destruct (offsetParent e) as [p|].
    + destruct (IHo p eq_refl (t + offsetTop e) (l + offsetLeft e))
        as [Ht Hl].
      rewrite Ht, Hl. split; ring.
    + rewrite !sumOf_nil. cbn [fst snd]. split; ring.
Qed.

Lemma takeUntil_never_stops {A : Type} (stop : A -> bool) (l : list A) :
  Forall (fun x => stop x = false) (takeUntil stop l).
Proof.
  induction l as [|x l IH]; cbn; [constructor|].
  destruct (stop x) eqn:E; constructor; assumption.
Qed.

(** C7: in rotated mode the accumulated top and left are the sums of
    [offsetTop] and [offsetLeft] over the offset-parent chain that starts
    at the trigger (included) and stops at the anchor container
    (excluded); the stored position is that sum shifted by the trigger's
    size and the 10 px gap. *)
Theorem C7_offset_accumulation (w : Env) (m : option HTMLElement)
  (cur : MenuPosition.t) (button container : HTMLElement) :
  buttonRef w = Some button -> containerRef w = Some container ->
  isRotated w = true ->
  let chain := offsetChain container button in
  let acc := accumulateOffsets container button 0 0 in
  let p := calculateMenuPosition w m cur in
  (same_node button container = false -> hd_error chain = Some button) /\
  Forall (fun e => same_node e container = false) chain /\
  fst acc == sumOf offsetTop chain /\
  snd acc == sumOf offsetLeft chain /\
  MenuPosition.left p == sumOf offsetLeft chain + offsetWidth button /\
  MenuPosition.top p
  == if MenuPosition.openUpward p
     then sumOf offsetTop chain - 10
     else sumOf offsetTop chain + offsetHeight button + 10.
Proof.
  intros Hb Hc Hrot chain acc p.
  destruct (accumulateOffsets_from container button 0 0) as [Ht Hl].
  fold acc chain in Ht, Hl. rewrite Qplus_0_l in Ht, Hl.
  split; [|split; [|split; [exact Ht | split; [exact Hl|]]]].
  - intro Hne. unfold chain. rewrite offsetChain_unfold, Hne. reflexivity.
  - apply (takeUntil_never_stops (fun e => same_node e container)).
  - unfold p, calculateMenuPosition. rewrite Hb, Hc, Hrot. cbn [negb].
    fold acc. destruct acc as [t l]. cbn [fst snd] in Ht, Hl.
    destruct (openUpward (rotatedLocals t button container m));
      cbn; rewrite Ht, Hl; split; reflexivity.
Qed.

Lemma C7_offset_accumulation_witness :
  fst (accumulateOffsets (playerBox []) (speedButton []) 0 0)
  == sumOf offsetTop [speedButton []; controlsBar []] /\
  snd (accumulateOffsets (playerBox []) (speedButton []) 0 0)
  == sumOf offsetLeft [speedButton []; controlsBar []].
Proof.
  destruct (C7_offset_accumulation (page true [] None) None
              (MenuPosition.Build 0 0 CssNone false)
              (speedButton []) (playerBox []) eq_refl eq_refl eq_refl)
    as [_ [_ [Ht [Hl _]]]].
  split; [exact Ht | exact Hl].
Defined.

(** ** The geometry the decision is taken from *)

(** The locals of the branch taken are the reference spaces and the
    reference height. *)
Lemma branchLocals_reference (w : Env) (b c : HTMLElement)
  (m : option HTMLElement) :
  let l := branchLocals w b c m in
  spaceBelow l == referenceSpaceBelow w b c /\
  spaceAbove l == referenceSpaceAbove w b c /\
  actualMenuHeight l = measuredOrEstimated m.
Proof.
  cbv zeta. unfold branchLocals, referenceSpaceBelow, referenceSpaceAbove.
  destruct (accumulateOffsets_from c b 0 0) as [Ht _].
  rewrite Qplus_0_l in Ht.
  destruct (isRotated w).
  - cbn [rotatedLocals spaceBelow spaceAbove actualMenuHeight].
    rewrite Ht. split; [reflexivity|]. split; [reflexivity|].
    now destruct m.
  - split; [reflexivity|]. split; [reflexivity|]. now destruct m.
Qed.

Lemma opensUpwardRule_compat (a a' b b' h h' : Q) :
  a == a' -> b == b' -> h == h' ->
  (opensUpwardRule a b h <-> opensUpwardRule a' b' h').
Proof.
  intros Ha Hb Hh. unfold opensUpwardRule.
  assert (Hmin : Qmin h 200 == Qmin h' 200).
  { apply Q.min_compat; [exact Hh | reflexivity]. }
  rewrite Ha, Hb, Hmin. reflexivity.
Qed.

(** The stored direction, decided from the reference geometry. *)
Lemma calculateMenuPosition_rule (w : Env) (m : option HTMLElement)
  (cur : MenuPosition.t) (b c : HTMLElement) :
  buttonRef w = Some b -> containerRef w = Some c ->
  (MenuPosition.openUpward (calculateMenuPosition w m cur) = true
   <-> opensUpwardRule (referenceSpaceAbove w b c)
         (referenceSpaceBelow w b c) (measuredOrEstimated m)).
Proof.
  intros Hb Hc.
  destruct (calculateMenuPosition_decision w m cur b c Hb Hc) as [Hup _].
  destruct (branchLocals_reference w b c m) as [Hbelow [Habove Hact]].
  rewrite Hup, openUpward_branchLocals.
  rewrite andb_true_iff, !Qlt_bool_iff.
  rewrite <- (opensUpwardRule_compat _ _ _ _ _ _ Habove Hbelow
                (Qeq_refl _)).
  rewrite Hact. unfold opensUpwardRule. reflexivity.
Qed.

Lemma chain_of_buttonWithSpaces (above below : Z) :
  offsetChain (containerWithSpaces above below)
    (buttonWithSpaces above below)
  = [buttonWithSpaces above below].
Proof. reflexivity. Qed.

(** In [pageWithSpaces rotated above below height] the spaces and the
    height are the ones asked for. *)
Lemma pageWithSpaces_reference (rotated : bool) (above below height : Z) :
  height <> 0%Z ->
  (Z.abs above <= 2 ^ 50)%Z -> (Z.abs below <= 2 ^ 50)%Z ->
  let w := pageWithSpaces rotated above below height in
  let b := buttonWithSpaces above below in
  let c := containerWithSpaces above below in
  referenceSpaceAbove w b c == inject_Z above /\
  referenceSpaceBelow w b c == inject_Z below /\
  measuredOrEstimated (Some (menuOfHeight height)) = inject_Z height.
Proof.
  intros Hh Ba Bb. cbv zeta.
  change (2 ^ 50)%Z with 1125899906842624%Z in Ba, Bb.
  unfold referenceSpaceAbove, referenceSpaceBelow.
  cbn [pageWithSpaces isRotated innerHeight].
  rewrite chain_of_buttonWithSpaces.
  assert (H10 : 10 == inject_Z 10) by reflexivity.
  split; [|split].
  - destruct rotated.
    + cbn. unfold Qeq. cbn. lia.
    + cbn [buttonWithSpaces getBoundingClientRect DOMRect.top].
      rewrite (roundDouble_difference _ _ (above + 10) 10
                 (Qeq_refl _) H10) by (unfold twoTo53; lia).
      unfold Qeq. cbn. lia.
  - destruct rotated.
    + cbn. unfold Qeq. cbn. lia.
    + cbn [buttonWithSpaces getBoundingClientRect DOMRect.bottom].
      assert (Hfirst : roundDouble (inject_Z (above + below + 20)
                                    - inject_Z (above + 10))
                       == inject_Z (below + 10)).
      { rewrite (roundDouble_difference _ _ (above + below + 20)
                   (above + 10) (Qeq_refl _) (Qeq_refl _))
          by (unfold twoTo53; lia).
        unfold Qeq. cbn. lia. }
      assert (Harg : roundDouble (inject_Z (above + below + 20)
                                  - inject_Z (above + 10)) - 10
                     == inject_Z (below + 10) - 10).
      { rewrite Hfirst. reflexivity. }
      rewrite (roundDouble_compat _ _ Harg).
      rewrite (roundDouble_difference _ _ (below + 10) 10
                 (Qeq_refl _) H10) by (unfold twoTo53; lia).
      unfold Qeq. cbn. lia.
  - unfold measuredOrEstimated. cbn [menuOfHeight offsetHeight].
    destruct (Qeq_bool (inject_Z height) 0) eqn:E; [|reflexivity].
    apply Qeq_bool_iff in E. exfalso. apply Hh.
    revert E. unfold Qeq. cbn. lia.
Qed.

(** ** The direction rule *)

(** C1: given both refs, the stored [openUpward] is true exactly when the
    space below is smaller than [min(actualHeight, 200)] and the space
    above is larger than the space below, and false otherwise, where the
    spaces are those of the mode in force and [actualHeight] is the
    measured menu height, or 250 when the menu is not mounted (or measures
    0); the rule is the same whether [isRotated] holds or not.  In either
    mode every triple of integers (below 2^50) occurs as (space above,
    space below, non-zero menu height) of some page, and the rule decides
    there. *)
Theorem C1_direction_rule :
  (forall (w : Env) (m : option HTMLElement) (cur : MenuPosition.t)
          (button container : HTMLElement),
      buttonRef w = Some button -> containerRef w = Some container ->
      let p := calculateMenuPosition w m cur in
      let above := referenceSpaceAbove w button container in
      let below := referenceSpaceBelow w button container in
      let actualHeight := measuredOrEstimated m in
      (MenuPosition.openUpward p = true
       <-> opensUpwardRule above below actualHeight) /\
      (MenuPosition.openUpward p = false
       <-> ~ opensUpwardRule above below actualHeight)) /\
  (forall (rotated : bool) (above below height : Z) (cur : MenuPosition.t),
      height <> 0%Z ->
      (Z.abs above <= 2 ^ 50)%Z -> (Z.abs below <= 2 ^ 50)%Z ->
      let p := calculateMenuPosition
                 (pageWithSpaces rotated above below height)
                 (Some (menuOfHeight height)) cur in
      (MenuPosition.openUpward p = true
       <-> opensUpwardRule (inject_Z above) (inject_Z below)
             (inject_Z height)) /\
      (MenuPosition.openUpward p = false
       <-> ~ opensUpwardRule (inject_Z above) (inject_Z below)
               (inject_Z height))).
Proof.
  assert (Hneg : forall (b : bool) (P : Prop),
             (b = true <-> P) -> (b = false <-> ~ P)).
  { intros b P HP. rewrite <- HP. destruct b; split; congruence. }
  split.
  - intros w m cur button container Hb Hc p above below actualHeight.
    pose proof (calculateMenuPosition_rule w m cur button container Hb Hc)
      as Hrule.
    split; [exact Hrule | exact (Hneg _ _ Hrule)].
  - intros rotated above below height cur Hh Ba Bb p.
    pose proof (calculateMenuPosition_rule
                  (pageWithSpaces rotated above below height)
                  (Some (menuOfHeight height)) cur
                  (buttonWithSpaces above below)
                  (containerWithSpaces above below) eq_refl eq_refl)
      as Hrule.
    destruct (pageWithSpaces_reference rotated above below height Hh Ba Bb)
      as [Ha [Hb Hm]].
    rewrite Hm in Hrule.
    rewrite (opensUpwardRule_compat _ _ _ _ _ _ Ha Hb (Qeq_refl _))
      in Hrule.
    split; [exact Hrule | exact (Hneg _ _ Hrule)].
Qed.

Lemma C1_direction_rule_witness :
  MenuPosition.openUpward
    (calculateMenuPosition (page true [] None) (Some speedMenu)
       (MenuPosition.Build 0 0 CssNone false)) = true /\
  MenuPosition.openUpward
    (calculateMenuPosition (page false [] None) None
       (MenuPosition.Build 0 0 CssNone false)) = true /\
  MenuPosition.openUpward
    (calculateMenuPosition (pageWithSpaces false 30 490 180)
       (Some (menuOfHeight 180)) (MenuPosition.Build 0 0 CssNone false))
  = false /\
  MenuPosition.openUpward
    (calculateMenuPosition (pageWithSpaces true 490 30 180)
       (Some (menuOfHeight 180)) (MenuPosition.Build 0 0 CssNone false))
  = true.
Proof.
  split; [|split; [|split]].
  - apply (proj1 (proj1 C1_direction_rule (page true [] None)
                    (Some speedMenu) (MenuPosition.Build 0 0 CssNone false)
                    (speedButton []) (playerBox []) eq_refl eq_refl)).
    split; vm_compute; reflexivity.
  - apply (proj1 (proj1 C1_direction_rule (page false [] None) None
                    (MenuPosition.Build 0 0 CssNone false)
                    (speedButton []) (playerBox []) eq_refl eq_refl)).
    split; vm_compute; reflexivity.
  - apply (proj2 (proj2 C1_direction_rule false 30%Z 490%Z 180%Z
                    (MenuPosition.Build 0 0 CssNone false)
                    ltac:(discriminate) ltac:(cbn; lia) ltac:(cbn; lia))).
    intros [H _]. vm_compute in H. discriminate H.
  - apply (proj1 (proj2 C1_direction_rule true 490%Z 30%Z 180%Z
                    (MenuPosition.Build 0 0 CssNone false)
                    ltac:(discriminate) ltac:(cbn; lia) ltac:(cbn; lia))).
    split; vm_compute; reflexivity.
Defined.

(** ** The height clamp *)

(** C5, as stated, fails: with a viewport 733 px high and 583 px below the
    trigger the stored height is the double product [733 * 0.7], which is
    larger than the exact 70% of 733. *)
Lemma C5_exact_ceiling_counterexample :
  ~ exactClampClaim page733 None (MenuPosition.Build 0 0 CssNone false)
      topButton (playerBox []).
Proof.
  intros [h [Hh [_ Hdown]]].
  assert (Hdir : MenuPosition.openUpward
                   (calculateMenuPosition page733 None
                      (MenuPosition.Build 0 0 CssNone false)) = false)
    by (vm_compute; reflexivity).
  destruct (Hdown Hdir) as [_ Hle].
  vm_compute in Hh. injection Hh as <-.
  apply Hle. vm_compute. reflexivity.
Qed.

(** The double product with [0.7] is within one part in 2^52 of the
    exact 70%. *)
Lemma doubleCeiling_bounds (w : Env) (c : HTMLElement) :
  0 < availableHeight w c ->
  (70 # 100) * availableHeight w c * (1 - (1 # 4503599627370496))
  <= doubleCeiling w c /\
  doubleCeiling w c
  <= (70 # 100) * availableHeight w c * (1 + (1 # 9007199254740992)).
Proof.
  intro HH. unfold doubleCeiling.
  fold zeroPointSeven.
  assert (Hx : 0 < availableHeight w c * zeroPointSeven).
  { apply Qmult_lt_0_compat; [exact HH | exact zeroPointSeven_pos]. }
  destruct (roundDouble_error _ Hx) as [Hlow Hhigh].
  set (r := roundDouble (availableHeight w c * zeroPointSeven)) in *.
  clearbody r. rewrite zeroPointSeven_value in Hlow, Hhigh.
  unfold twoTo53 in Hlow, Hhigh.
  set (H := availableHeight w c) in *. clearbody H.
  change (inject_Z (9007199254740992 - 1)) with 9007199254740991 in Hlow.
  change (inject_Z 9007199254740992) with 9007199254740992 in Hlow, Hhigh.
  change (inject_Z (9007199254740992 + 1)) with 9007199254740993 in Hhigh.
  split; lra.
Qed.

(** C5, amended: given both refs, the stored [maxHeight] is
    [min(spaceAbove, actualHeight)] pixels when the menu opens upward and
    [min(spaceBelow, H * 0.7)] when it opens downward, [H] being the
    viewport height in normal mode and the container height in rotated
    mode and the product being the double one; it never exceeds the space
    on the chosen side, nor that computed ceiling when opening downward;
    and the computed ceiling is within one part in 2^52 of the exact 70% of
    [H]. *)
Theorem C5_maxHeight_clamp (w : Env) (m : option HTMLElement)
  (cur : MenuPosition.t) (button container : HTMLElement) :
  buttonRef w = Some button -> containerRef w = Some container ->
  let p := calculateMenuPosition w m cur in
  let above := referenceSpaceAbove w button container in
  let below := referenceSpaceBelow w button container in
  let ceiling := doubleCeiling w container in
  (exists h,
      MenuPosition.maxHeight p = Px h /\
      (MenuPosition.openUpward p = true ->
       h == Qmin above (measuredOrEstimated m) /\ h <= above) /\
      (MenuPosition.openUpward p = false ->
       h == Qmin below ceiling /\ h <= below /\ h <= ceiling)) /\
  (0 < availableHeight w container ->
   (70 # 100) * availableHeight w container * (1 - (1 # 4503599627370496))
   <= ceiling /\
   ceiling
   <= (70 # 100) * availableHeight w container
      * (1 + (1 # 9007199254740992))).
Proof.
  intros Hb Hc p above below ceiling.
  split; [|apply doubleCeiling_bounds].
  destruct (calculateMenuPosition_decision w m cur button container Hb Hc)
    as [Hup Hmax].
  fold p in Hup, Hmax.
  destruct (branchLocals_reference w button container m)
    as [Hbelow [Habove Hact]].
  fold above in Habove. fold below in Hbelow.
  pose proof (maxHeight_branchLocals w button container m) as Hm.
  cbv zeta in Hm.
  set (l := branchLocals w button container m) in *.
  exists (maxHeight l). split; [exact Hmax|].
  assert (Hceil : jsMul (availableHeight w container) zeroPointSeven
                  = ceiling) by reflexivity.
  rewrite Hup. split; intros Hdir; rewrite Hdir in Hm; rewrite Hm.
  - rewrite Hact.
    assert (Hmin : Qmin (spaceAbove l) (measuredOrEstimated m)
                   == Qmin above (measuredOrEstimated m)).
    { apply Q.min_compat; [exact Habove | reflexivity]. }
    rewrite Hmin. split; [reflexivity | apply Q.le_min_l].
  - rewrite Hceil.
    assert (Hmin : Qmin (spaceBelow l) ceiling == Qmin below ceiling).
    { apply Q.min_compat; [exact Hbelow | reflexivity]. }
    rewrite Hmin. split; [reflexivity|].
    split; [apply Q.le_min_l | apply Q.le_min_r].
Qed.

Lemma C5_maxHeight_clamp_witness :
  exists h,
    MenuPosition.maxHeight
      (calculateMenuPosition page733 None
         (MenuPosition.Build 0 0 CssNone false)) = Px h /\
    h <= 583 /\
    h <= (70 # 100) * 733 * (1 + (1 # 9007199254740992)).
Proof.
  destruct (C5_maxHeight_clamp page733 None
              (MenuPosition.Build 0 0 CssNone false)
              topButton (playerBox []) eq_refl eq_refl)
    as [[h [Hh [_ Hdown]]] Hbounds].
  exists h. split; [exact Hh|].
  destruct (Hdown ltac:(vm_compute; reflexivity)) as [_ [Hbelow Hceil]].
  split.
  - apply (Qle_trans _ _ _ Hbelow). vm_compute. discriminate.
  - apply (Qle_trans _ _ _ Hceil).
    apply (proj2 (Hbounds ltac:(reflexivity))).
Defined.

(** ** Available space *)

(** C6, as stated, fails in normal mode: with a viewport 900 px high and
    the trigger's bottom edge at the double nearest to 100.3, the space
    below is the rounded result of two double subtractions, not the exact
    difference. *)
Lemma C6_exact_space_counterexample :
  ~ exactSpaceClaim fractionalPage None fractionalButton (playerBox []).
Proof.
  intro H. destruct (H eq_refl) as [Hbelow _].
  vm_compute in Hbelow. discriminate Hbelow.
Qed.

(** C6, amended: in normal mode the space below is
    [viewportHeight - rect.bottom - 10] and the space above
    [rect.top - 10], each subtraction rounded to the nearest double, hence
    the exact values when the rectangle's edges are integers (below 2^50);
    in rotated mode the space below is the container height minus
    (accumulated top plus trigger height) minus 20 and the space above is
    the accumulated top minus 20, exactly.  These are the spaces the
    stored direction is decided from. *)
Theorem C6_available_space (w : Env) (m : option HTMLElement)
  (cur : MenuPosition.t) (button container : HTMLElement) :
  buttonRef w = Some button -> containerRef w = Some container ->
  let l := branchLocals w button container m in
  let rect := getBoundingClientRect button in
  let accTop := fst (accumulateOffsets container button 0 0) in
  MenuPosition.openUpward (calculateMenuPosition w m cur)
  = Qlt_bool (spaceBelow l) (Qmin (actualMenuHeight l) 200)
    && Qlt_bool (spaceBelow l) (spaceAbove l) /\
  (isRotated w = false ->
   spaceBelow l
   == roundDouble (roundDouble (innerHeight w - DOMRect.bottom rect) - 10) /\
   spaceAbove l == roundDouble (DOMRect.top rect - 10)) /\
  (isRotated w = false ->
   forall viewportHeight top bottom : Z,
     innerHeight w == inject_Z viewportHeight ->
     DOMRect.top rect == inject_Z top ->
     DOMRect.bottom rect == inject_Z bottom ->
     (Z.abs viewportHeight <= 2 ^ 50)%Z ->
     (Z.abs top <= 2 ^ 50)%Z ->
     (Z.abs bottom <= 2 ^ 50)%Z ->
     spaceBelow l == innerHeight w - DOMRect.bottom rect - 10 /\
     spaceAbove l == DOMRect.top rect - 10) /\
  (isRotated w = true ->
   spaceBelow l
   == offsetHeight container - (accTop + offsetHeight button) - 20 /\
   spaceAbove l == accTop - 20).
Proof.
  intros Hb Hc l rect accTop. split; [|split; [|split]].
  - destruct (calculateMenuPosition_decision w m cur button container Hb Hc)
      as [Hup _].
    rewrite Hup. apply openUpward_branchLocals.
  - unfold l, branchLocals. intros ->. split; reflexivity.
  - unfold l, branchLocals. intros ->.
    intros vh top bottom Hvh Htop Hbottom Bvh Btop Bbottom.
    cbn [normalLocals spaceBelow spaceAbove]. unfold jsSub. fold rect.
    change (2 ^ 50)%Z with 1125899906842624%Z in Bvh, Btop, Bbottom.
    assert (H10 : 10 == inject_Z 10) by reflexivity.
    assert (Hfirst : roundDouble (innerHeight w - DOMRect.bottom rect)
                     == innerHeight w - DOMRect.bottom rect).
    { apply (roundDouble_difference _ _ vh bottom Hvh Hbottom).
      unfold twoTo53. lia. }
    assert (Hdiff : innerHeight w - DOMRect.bottom rect
                    == inject_Z (vh - bottom)).
    { rewrite Hvh, Hbottom. unfold Qeq. cbn. lia. }
    split.
    + assert (Harg : roundDouble (innerHeight w - DOMRect.bottom rect) - 10
                     == innerHeight w - DOMRect.bottom rect - 10).
      { rewrite Hfirst. reflexivity. }
      rewrite (roundDouble_compat _ _ Harg).
      apply (roundDouble_difference _ _ (vh - bottom) 10 Hdiff H10).
      unfold twoTo53. lia.
    + apply (roundDouble_difference _ _ top 10 Htop H10).
      unfold twoTo53. lia.
  - unfold l, branchLocals. intros ->. cbn. split; reflexivity.
Qed.

Lemma C6_available_space_witness :
  spaceBelow (branchLocals (page false [] None) (speedButton [])
                (playerBox []) None) == 800 - 750 - 10 /\
  spaceAbove (branchLocals (page false [] None) (speedButton [])
                (playerBox []) None) == 750 - 10 /\
  spaceBelow (branchLocals (page true [] None) (speedButton [])
                (playerBox []) None) == 30 /\
  spaceAbove (branchLocals (page true [] None) (speedButton [])
                (playerBox []) None) == 490.
Proof.
  destruct (C6_available_space (page false [] None) None
              (MenuPosition.Build 0 0 CssNone false)
              (speedButton []) (playerBox []) eq_refl eq_refl)
    as [_ [_ [Hn _]]].
  destruct (C6_available_space (page true [] None) None
              (MenuPosition.Build 0 0 CssNone false)
              (speedButton []) (playerBox []) eq_refl eq_refl)
    as [_ [_ [_ Hr]]].
  destruct (Hn eq_refl 800%Z 750%Z 750%Z) as [Hnb Hna];
    try reflexivity; try (cbn; lia).
  destruct (Hr eq_refl) as [Hrb Hra].
  split; [|split; [|split]].
  - exact Hnb.
  - exact Hna.
  - rewrite Hrb. reflexivity.
  - rewrite Hra. reflexivity.
Defined.

(** ** Missing refs *)

Lemma setMenuPosition_same (st : State) :
  setMenuPosition (menuPosition st) st = st.
Proof. now destruct st. Qed.

(** C8: when the trigger ref or the container ref is null,
    [calculateMenuPosition] changes nothing: the stored placement, and the
    whole component state, are exactly what they were. *)
Theorem C8_missing_ref_noop (w : Env) (st : State) :
  buttonRef w = None \/ containerRef w = None ->
  (forall m cur, calculateMenuPosition w m cur = cur) /\
  runCalculateMenuPosition w st = st.
Proof.
  intros H.
  assert (Hcalc : forall m cur, calculateMenuPosition w m cur = cur).
  { intros m cur. unfold calculateMenuPosition.
    destruct H as [-> | ->]; [reflexivity|].
    now destruct (buttonRef w). }
  split; [exact Hcalc|].
  unfold runCalculateMenuPosition. rewrite Hcalc.
  apply setMenuPosition_same.
Qed.

Lemma C8_missing_ref_noop_witness :
  runCalculateMenuPosition (pageWithoutContainer true) openState = openState.
Proof.
  exact (proj2 (C8_missing_ref_noop (pageWithoutContainer true) openState
                  (or_intror eq_refl))).
Defined.

(** ** Fullscreen tracking without a container *)

(** With a null container ref the optional call yields [undefined], and
    [undefined !== null] holds. *)
Lemma updateFullscreen_null_container (w : Env) (st : State) :
  containerRef w = None -> isFullscreen (updateFullscreen w st) = true.
Proof.
  intro Hc. unfold updateFullscreen. rewrite Hc. cbn.
  apply orb_true_r.
Qed.

(** C2: evaluated with a null container ref and no native fullscreen
    element, [updateFullscreen] stores [true], where "not fullscreen" is
    expected. *)
Theorem C2_null_container_reports_fullscreen :
  containerRef (pageWithoutContainer false) = None /\
  fullscreenElement (pageWithoutContainer false) = None /\
  isFullscreen
    (updateFullscreen (pageWithoutContainer false) (initialState false))
  = true.
Proof. repeat split. Qed.

(** With the container attached the same check does report "not
    fullscreen" when no ancestor carries the marker class. *)
Lemma updateFullscreen_attached_unmarked (w : Env) (st : State)
  (c : HTMLElement) :
  containerRef w = Some c -> fullscreenElement w = None ->
  closest "is-web-fullscreen" c = None ->
  isFullscreen (updateFullscreen w st) = false.
Proof.
  intros Hc Hf Hcl. unfold updateFullscreen, optional_call.
  now rewrite Hc, Hf, Hcl.
Qed.

(** ** Portal target *)

(** C3, as stated, fails: in rotated mode with the container ref still
    null and the menu shown, the menu is rendered into the document body
    instead of being held back. *)
Lemma C3_portal_claim_counterexample :
  ~ portalClaimAsStated (pageWithoutContainer true) openState.
Proof.
  intro H. destruct (H eq_refl eq_refl) as [_ Hrot].
  specialize (Hrot eq_refl). cbn in Hrot. discriminate Hrot.
Qed.

(** C3, amended: whenever the menu is shown and a document exists (the
    [typeof document] guard of line 226) the menu is rendered, never held
    back: at the anchor container exactly when the mode is rotated and the
    container ref is attached, and at the document body otherwise (normal
    mode, or rotated mode with the container ref still null); it is
    rendered nowhere else.  Without a document nothing is rendered. *)
Theorem C3_portal_target (w : Env) (st : State) :
  showSpeedMenu st = true ->
  (documentDefined w = true ->
   (forall c, render w st = Some (Container c)
              <-> isRotated w = true /\ containerRef w = Some c) /\
   (render w st = Some DocumentBody
    <-> isRotated w = false \/ containerRef w = None) /\
   render w st <> None) /\
  (documentDefined w = false -> render w st = None).
Proof.
  intros Hs. unfold render, portalTarget. rewrite Hs. cbn [andb].
  split; intros Hd; rewrite Hd; [|reflexivity].
  destruct (isRotated w); [destruct (containerRef w) as [c'|]|].
  - split; [|split].
    + intro c. split.
      * intro H. injection H as ->. now split.
      * intros [_ H]. now injection H as ->.
    + split; [discriminate|]. intros [H|H]; discriminate.
    + discriminate.
  - split; [|split].
    + intro c. split; [discriminate|]. intros [_ H]. discriminate.
    + split; [now right | reflexivity].
    + discriminate.
  - split; [|split].
    + intro c. split; [discriminate|]. intros [H _]. discriminate.
    + split; [now left | reflexivity].
    + discriminate.
Qed.

Lemma C3_portal_target_witness :
  render (pageWithoutContainer true) openState = Some DocumentBody /\
  render (page true [] None) openState = Some (Container (playerBox [])) /\
  render pageWithoutDocument openState = None.
Proof.
  split; [|split].
  - apply (proj1 (proj2 (proj1 (C3_portal_target (pageWithoutContainer true)
                                  openState eq_refl) eq_refl))).
    now right.
  - apply (proj1 (proj1 (C3_portal_target (page true [] None) openState
                           eq_refl) eq_refl)).
    now split.
  - apply (proj2 (C3_portal_target pageWithoutDocument openState eq_refl)).
    reflexivity.
Defined.

(** ** Scroll dismissal *)

(** C9, as stated, fails: a scroll of a nested element, here the menu's
    own scrollable list, is not delivered to the [window] listener, and the
    open menu stays open. *)
Lemma C9_nested_scroll_counterexample :
  ~ anyScrollClosesClaim (page false [] None) (ElementScroll speedMenu 0 40)
      openState.
Proof.
  intro H. specialize (H eq_refl eq_refl). discriminate H.
Qed.

(** C9, amended: in every state where the menu is open, a scroll of the
    document's viewport, whatever the scroll position it reports, leaves
    the menu closed and nothing rendered, and the stored placement
    untouched; a scroll of a nested element does not reach the listener
    and leaves the whole state as it was. *)
Theorem C9_scroll_closes (w : Env) (st : State) :
  showSpeedMenu st = true ->
  (forall scrollX scrollY,
      let st' := step w (Scroll scrollX scrollY) st in
      showSpeedMenu st' = false /\
      render w st' = None /\
      menuPosition st' = menuPosition st) /\
  (forall target scrollLeft scrollTop,
      step w (ElementScroll target scrollLeft scrollTop) st = st).
Proof.
  intros Hs. destruct st as [pos fs show timer]. cbn in Hs. subst show.
  split.
  - intros scrollX scrollY. cbn. split; [reflexivity|]. split; reflexivity.
  - intros target scrollLeft scrollTop. reflexivity.
Qed.

Lemma C9_scroll_closes_witness :
  showSpeedMenu (step (page false [] None) (Scroll 0 120) openState) = false
  /\ step (page false [] None) (ElementScroll speedMenu 0 40) openState
     = openState.
Proof.
  split.
  - exact (proj1 (proj1 (C9_scroll_closes (page false [] None) openState
                           eq_refl) 0 120)).
  - exact (proj2 (C9_scroll_closes (page false [] None) openState eq_refl)
             speedMenu 0 40).
Defined.

(** ** Reopening in an unchanged environment *)

(** With both refs attached the new placement does not depend on the
    stored one. *)
Lemma calculateMenuPosition_fresh (w : Env) (m : option HTMLElement)
  (cur cur' : MenuPosition.t) (b c : HTMLElement) :
  buttonRef w = Some b -> containerRef w = Some c ->
  calculateMenuPosition w m cur = calculateMenuPosition w m cur'.
Proof.
  intros Hb Hc. unfold calculateMenuPosition. now rewrite Hb, Hc.
Qed.

(** A computation overwrites whatever an earlier one stored. *)
Lemma calculateMenuPosition_absorbs (w : Env) (m m' : option HTMLElement)
  (cur : MenuPosition.t) :
  calculateMenuPosition w m (calculateMenuPosition w m' cur)
  = calculateMenuPosition w m cur.
Proof.
  destruct (buttonRef w) as [b|] eqn:Hb.
  - destruct (containerRef w) as [c|] eqn:Hc.
    + apply (calculateMenuPosition_fresh w m _ _ b c Hb Hc).
    + unfold calculateMenuPosition. now rewrite Hb, Hc.
  - unfold calculateMenuPosition. now rewrite Hb.
Qed.

Lemma step_Click_open (w : Env) (pos : MenuPosition.t) (fs timer : bool) :
  step w Click (Build_State pos fs true timer) = Build_State pos fs false false.
Proof. reflexivity. Qed.

Lemma step_Click_closed (w : Env) (pos : MenuPosition.t) (fs timer : bool) :
  step w Click (Build_State pos fs false timer)
  = Build_State
      (calculateMenuPosition w (mountedMenu w)
         (calculateMenuPosition w None pos))
      fs true true.
Proof.
  unfold mountedMenu.
  cbv -[calculateMenuPosition documentDefined menuElement].
  now destruct (documentDefined w).
Qed.

Lemma step_SettleTimeout_armed (w : Env) (pos : MenuPosition.t) (fs : bool) :
  step w SettleTimeout (Build_State pos fs true true)
  = Build_State (calculateMenuPosition w (mountedMenu w) pos) fs true false.
Proof.
  unfold mountedMenu.
  cbv -[calculateMenuPosition documentDefined menuElement].
  now destruct (documentDefined w).
Qed.

Lemma run_closeThenOpen (w : Env) (settle : bool) (st : State) :
  showSpeedMenu st = true ->
  run (closeThenOpen w settle) st
  = {| menuPosition :=
         calculateMenuPosition w (mountedMenu w) (menuPosition st);
       isFullscreen := isFullscreen st;
       showSpeedMenu := true;
       settleTimer := negb settle |}.
Proof.
  intros Hs. destruct st as [pos fs show timer]. cbn in Hs. subst show.
  cbn [menuPosition isFullscreen].
  destruct settle; cbn [closeThenOpen app run negb];
    rewrite step_Click_open, step_Click_closed;
    rewrite ?step_SettleTimeout_armed, !calculateMenuPosition_absorbs;
    reflexivity.
Qed.

(** C10: in an unchanged environment, closing and reopening the menu
    twice in a row stores the same placement both times (whether or not
    the settle timer fires after each reopening); with both refs attached
    the placement after a reopening is a function of the environment alone,
    whatever was stored before. *)
Theorem C10_reopen_idempotent (w : Env) (settle : bool) (st : State) :
  showSpeedMenu st = true ->
  let once := run (closeThenOpen w settle) st in
  let twice := run (closeThenOpen w settle) once in
  showSpeedMenu once = true /\
  showSpeedMenu twice = true /\
  menuPosition twice = menuPosition once /\
  (forall b c st2,
      buttonRef w = Some b -> containerRef w = Some c ->
      showSpeedMenu st2 = true ->
      menuPosition (run (closeThenOpen w settle) st2) = menuPosition once).
Proof.
  intros Hs once twice.
  assert (Honce : once
                  = {| menuPosition :=
                         calculateMenuPosition w (mountedMenu w)
                           (menuPosition st);
                       isFullscreen := isFullscreen st;
                       showSpeedMenu := true;
                       settleTimer := negb settle |}).
  { apply run_closeThenOpen, Hs. }
  assert (Hopen : showSpeedMenu once = true) by now rewrite Honce.
  split; [exact Hopen|].
  unfold twice. rewrite (run_closeThenOpen w settle once Hopen).
  cbn [showSpeedMenu menuPosition]. split; [reflexivity|]. split.
  - rewrite Honce. cbn [menuPosition].
    apply calculateMenuPosition_absorbs.
  - intros b c st2 Hb Hc Hs2.
    rewrite (run_closeThenOpen w settle st2 Hs2), Honce.
    cbn [menuPosition].
    apply (calculateMenuPosition_fresh w _ _ _ b c Hb Hc).
Qed.

Lemma C10_reopen_idempotent_witness :
  menuPosition
    (run (closeThenOpen (page true [] None) true)
       (run (closeThenOpen (page true [] None) true) openState))
  = menuPosition (run (closeThenOpen (page true [] None) true) openState).
Proof.
  exact (proj1 (proj2 (proj2 (C10_reopen_idempotent (page true [] None) true
                                openState eq_refl)))).
Defined.

(** ** The fullscreen flag is never read *)

Lemma same_node_eraseClasses (a b : HTMLElement) :
  same_node (eraseClasses a) (eraseClasses b) = same_node a b.
Proof. now destruct a, b. Qed.

Lemma offsetParent_eraseClasses (e : HTMLElement) :
  offsetParent (eraseClasses e) = eraseRef (offsetParent e).
Proof. now destruct e. Qed.

Lemma layout_eraseClasses (e : HTMLElement) :
  offsetTop (eraseClasses e) = offsetTop e /\
  offsetLeft (eraseClasses e) = offsetLeft e /\
  offsetHeight (eraseClasses e) = offsetHeight e /\
  offsetWidth (eraseClasses e) = offsetWidth e /\
  getBoundingClientRect (eraseClasses e) = getBoundingClientRect e.
Proof. now destruct e. Qed.

Lemma eraseClasses_idempotent (e : HTMLElement) :
  eraseClasses (eraseClasses e) = eraseClasses e.
Proof.
  induction e as [e IHo IHp] using HTMLElement_parents_ind.
  destruct e as [i cl ot ol oh ow r op pe]. cbn in *.
  f_equal.
  - destruct op as [p|]; [|reflexivity]. now rewrite (IHo p eq_refl).
  - destruct pe as [p|]; [|reflexivity]. now rewrite (IHp p eq_refl).
Qed.

Lemma accumulateOffsets_eraseClasses (c e : HTMLElement) :
  forall t l,
    accumulateOffsets (eraseClasses c) (eraseClasses e) t l
    = accumulateOffsets c e t l.
Proof.
  induction e as [e IHo _] using HTMLElement_parents_ind.
  intros t l.
  rewrite (accumulateOffsets_unfold c e),
    (accumulateOffsets_unfold (eraseClasses c) (eraseClasses e)).
  rewrite same_node_eraseClasses, offsetParent_eraseClasses.
  destruct (layout_eraseClasses e) as [-> [-> _]].
  destruct (same_node e c); cbn [negb]; [reflexivity|].
  destruct (offsetParent e) as [p|]; cbn [eraseRef]; [|reflexivity].
  apply (IHo p eq_refl).
Qed.

Lemma measured_height_eraseRef (m : option HTMLElement) :
  option_map offsetHeight (eraseRef m) = option_map offsetHeight m.
Proof. destruct m as [e|]; [|reflexivity]. now destruct e. Qed.

Lemma normalLocals_eraseRef (vh : Q) (r : DOMRect.t)
  (m : option HTMLElement) :
  normalLocals vh r (eraseRef m) = normalLocals vh r m.
Proof. unfold normalLocals. now rewrite measured_height_eraseRef. Qed.

Lemma rotatedLocals_eraseClasses (t : Q) (b c : HTMLElement)
  (m : option HTMLElement) :
  rotatedLocals t (eraseClasses b) (eraseClasses c) (eraseRef m)
  = rotatedLocals t b c m.
Proof.
  unfold rotatedLocals. rewrite measured_height_eraseRef.
  destruct (layout_eraseClasses b) as [_ [_ [-> _]]].
  destruct (layout_eraseClasses c) as [_ [_ [-> _]]].
  reflexivity.
Qed.

(** The placement reads neither a class list nor the native fullscreen
    element. *)
Lemma calculateMenuPosition_eraseEnv (w : Env) (m : option HTMLElement)
  (cur : MenuPosition.t) :
  calculateMenuPosition (eraseEnv w) (eraseRef m) cur
  = calculateMenuPosition w m cur.
Proof.
  unfold calculateMenuPosition. cbn [eraseEnv buttonRef containerRef
                                      isRotated innerHeight].
  destruct (buttonRef w) as [b|]; cbn [eraseRef]; [|reflexivity].
  destruct (containerRef w) as [c|]; cbn [eraseRef]; [|reflexivity].
  destruct (layout_eraseClasses b) as [_ [_ [Hh [Hw Hr]]]].
  destruct (isRotated w); cbn [negb].
  - rewrite accumulateOffsets_eraseClasses.
    destruct (accumulateOffsets c b 0 0) as [t l].
    now rewrite rotatedLocals_eraseClasses, Hh, Hw.
  - now rewrite Hr, normalLocals_eraseRef.
Qed.

Lemma render_eraseEnv (w : Env) (st : State) :
  render (eraseEnv w) st
  = match render w st with
    | Some t => Some (eraseTarget t)
    | None => None
    end.
Proof.
  unfold render, portalTarget.
  cbn [eraseEnv documentDefined isRotated containerRef].
  destruct (showSpeedMenu st && documentDefined w); [|reflexivity].
  destruct (isRotated w); [|reflexivity].
  now destruct (containerRef w).
Qed.

Lemma menuRef_eraseEnv (w : Env) (st : State) :
  menuRef (eraseEnv w) st = eraseRef (menuRef w st).
Proof.
  unfold menuRef. rewrite render_eraseEnv.
  now destruct (render w st).
Qed.

Lemma eraseState_readable (st1 st2 : State) :
  eraseState st1 = eraseState st2 <-> readableState st1 = readableState st2.
Proof.
  destruct st1 as [p1 f1 s1 t1], st2 as [p2 f2 s2 t2].
  unfold eraseState, setIsFullscreen, readableState. cbn.
  split; intro H; injection H as -> -> ->; reflexivity.
Qed.

(** A step never reads the [isFullscreen] cell. *)
Lemma step_readable_state (w : Env) (ev : Event) (st1 st2 : State) :
  readableState st1 = readableState st2 ->
  readableState (step w ev st1) = readableState (step w ev st2).
Proof.
  destruct st1 as [p1 f1 s1 t1], st2 as [p2 f2 s2 t2].
  unfold readableState. cbn [menuPosition showSpeedMenu settleTimer].
  intro H. injection H as -> -> ->.
  destruct ev, s2, t2;
    cbv -[calculateMenuPosition documentDefined menuElement];
    try reflexivity;
    destruct (documentDefined w); reflexivity.
Qed.

(** A step reads neither a class list nor the native fullscreen
    element, except to set the [isFullscreen] cell. *)
Lemma step_readable_env (w : Env) (ev : Event) (st : State) :
  readableState (step (eraseEnv w) ev st) = readableState (step w ev st).
Proof.
  destruct st as [p f s t]. unfold readableState.
  assert (Hcalc : forall st' cur,
             calculateMenuPosition (eraseEnv w) (menuRef (eraseEnv w) st') cur
             = calculateMenuPosition w (menuRef w st') cur).
  { intros st' cur.
    now rewrite menuRef_eraseEnv, calculateMenuPosition_eraseEnv. }
  destruct ev, s, t;
    cbv -[calculateMenuPosition menuRef eraseEnv];
    rewrite ?Hcalc; reflexivity.
Qed.

Lemma step_respects_erasure (w1 w2 : Env) (ev : Event) (st1 st2 : State) :
  eraseEnv w1 = eraseEnv w2 ->
  readableState st1 = readableState st2 ->
  readableState (step w1 ev st1) = readableState (step w2 ev st2).
Proof.
  intros Hw Hst.
  rewrite <- (step_readable_env w1), Hw, (step_readable_env w2).
  now apply step_readable_state.
Qed.

Lemma observe_respects_erasure (w1 w2 : Env) (st1 st2 : State) :
  eraseEnv w1 = eraseEnv w2 ->
  readableState st1 = readableState st2 ->
  observe w1 st1 = observe w2 st2.
Proof.
  intros Hw Hst. unfold observe.
  rewrite <- !render_eraseEnv, Hw.
  destruct st1 as [p1 f1 s1 t1], st2 as [p2 f2 s2 t2].
  unfold readableState in Hst. cbn in Hst. injection Hst as -> -> ->.
  reflexivity.
Qed.

Lemma eraseTrace_cons (w : Env) (ev : Event) (tr : list (Env * Event)) :
  eraseTrace ((w, ev) :: tr) = (eraseEnv w, ev) :: eraseTrace tr.
Proof. reflexivity. Qed.

Lemma observations_respect_erasure (tr1 : list (Env * Event)) :
  forall tr2 st1 st2,
    eraseTrace tr1 = eraseTrace tr2 ->
    readableState st1 = readableState st2 ->
    observations tr1 st1 = observations tr2 st2 /\
    readableState (run tr1 st1) = readableState (run tr2 st2).
Proof.
  induction tr1 as [|[w1 ev1] tr1 IH]; intros [|[w2 ev2] tr2] st1 st2 Htr Hst;
    rewrite ?eraseTrace_cons in Htr; try discriminate Htr.
  - split; [reflexivity | exact Hst].
  - assert (Hw : eraseEnv w1 = eraseEnv w2) by congruence.
    assert (Hev : ev1 = ev2) by congruence.
    assert (Htr' : eraseTrace tr1 = eraseTrace tr2) by congruence.
    clear Htr. rename Htr' into Htr. subst ev2.
    pose proof (step_respects_erasure w1 w2 ev1 st1 st2 Hw Hst) as Hstep.
    destruct (IH tr2 _ _ Htr Hstep) as [Hobs Hrun].
    cbn [observations run]. split; [|exact Hrun].
    f_equal; [|exact Hobs].
    now apply observe_respects_erasure.
Qed.

(** C4: two runs over the same events whose environments differ at most
    in [document.fullscreenElement] and in the class lists of elements, and
    whose start states differ at most in the [isFullscreen] cell, show the
    same placement, the same open or closed menu and the same portal node
    after every step, and end in states that differ at most in the
    [isFullscreen] cell. *)
Theorem C4_fullscreen_never_read (tr1 tr2 : list (Env * Event))
  (st1 st2 : State) :
  eraseTrace tr1 = eraseTrace tr2 ->
  eraseState st1 = eraseState st2 ->
  observations tr1 st1 = observations tr2 st2 /\
  eraseState (run tr1 st1) = eraseState (run tr2 st2).
Proof.
  intros Htr Hst. rewrite eraseState_readable in Hst.
  rewrite eraseState_readable.
  now apply observations_respect_erasure.
Qed.

Lemma C4_fullscreen_never_read_witness :
  let marked := page true ["is-web-fullscreen"%string]
                  (Some (playerBox ["is-web-fullscreen"%string])) in
  let plain := page true [] None in
  let events := [Mount; Click; PollTick; SettleTimeout; Scroll 0 40; Click] in
  let tr1 := map (fun ev => (marked, ev)) events in
  let tr2 := map (fun ev => (plain, ev)) events in
  isFullscreen (run tr1 (initialState false)) = true /\
  isFullscreen (run tr2 (initialState false)) = false /\
  observations tr1 (initialState false)
  = observations tr2 (initialState false).
Proof.
  cbv zeta. split; [reflexivity|]. split; [reflexivity|].
  apply (C4_fullscreen_never_read
           (map (fun ev => (page true ["is-web-fullscreen"%string]
                              (Some (playerBox ["is-web-fullscreen"%string])),
                            ev))
              [Mount; Click; PollTick; SettleTimeout; Scroll 0 40; Click])
           (map (fun ev => (page true [] None, ev))
              [Mount; Click; PollTick; SettleTimeout; Scroll 0 40; Click])
           (initialState false) (initialState false));
    reflexivity.
Defined.

(** * Further properties of the component *)

(** ** Placement and markup *)

Lemma Qlt_bool_false_iff (a b : Q) : Qlt_bool a b = false <-> b <= a.
Proof.
  rewrite <- not_true_iff_false, Qlt_bool_iff. split.
  - apply Qnot_lt_le.
  - apply Qle_not_lt.
Qed.

Lemma or_default_positive (x : option Q) (d : Q) :
  0 < d -> (forall v, x = Some v -> 0 <= v) -> 0 < or_default x d.
Proof.
  intros Hd Hx. destruct x as [v|]; [|exact Hd]. cbn.
  destruct (Qeq_bool v 0) eqn:E; [exact Hd|].
  apply Qeq_bool_neq in E. specialize (Hx v eq_refl).
  apply Qle_lt_or_eq in Hx. destruct Hx as [Hx|Hx]; [exact Hx|].
  exfalso. apply E. symmetry. exact Hx.
Qed.

(** What the rotated branch stores as [top], in terms of its spaces: the
    bottom edge of an upward menu sits 10 px below [spaceAbove]; the top
    edge of a downward menu leaves [spaceBelow] and 10 px to the lower end
    of the container. *)
Lemma calculateMenuPosition_top_rotated (w : Env) (m : option HTMLElement)
  (cur : MenuPosition.t) (b c : HTMLElement) :
  buttonRef w = Some b -> containerRef w = Some c -> isRotated w = true ->
  let p := calculateMenuPosition w m cur in
  let l := branchLocals w b c m in
  MenuPosition.top p
  == if MenuPosition.openUpward p
     then spaceAbove l + 10
     else offsetHeight c - spaceBelow l - 10.
Proof.
  intros Hb Hc Hrot. unfold calculateMenuPosition, branchLocals.
  rewrite Hb, Hc, Hrot. cbn [negb].
  destruct (accumulateOffsets c b 0 0) as [t lft]. cbn [fst].
  destruct (openUpward (rotatedLocals t b c m)) eqn:E; cbn; ring.
Qed.

(** X1: in rotated mode with both refs attached, a menu no higher than
    the stored [maxHeight] stays inside the container: opening upward,
    [top] is ['auto'] and, whatever the height of the containing block,
    the bottom edge given by [bottom] is at least the menu's height below
    the block's upper end; opening downward, [bottom] is ['auto'] and the
    menu's lower edge stays 10 px above the container's lower end. *)
Theorem X1_menu_fits_vertically (w : Env) (m : option HTMLElement)
  (cur : MenuPosition.t) (button container : HTMLElement) :
  buttonRef w = Some button -> containerRef w = Some container ->
  isRotated w = true ->
  let p := calculateMenuPosition w m cur in
  let s := menuStyle w p in
  exists h,
    styleMaxHeight s = Px h /\
    if MenuPosition.openUpward p
    then styleTop s = OffsetAuto /\
         forall blockHeight,
         exists b, resolveOffset blockHeight (styleBottom s) = Some b /\
                   forall height, height <= h ->
                                  0 <= blockHeight - b - height
    else styleBottom s = OffsetAuto /\
         exists t, styleTop s = OffsetPx t /\
                   forall height,
                     height <= h ->
                     t + height <= offsetHeight container - 10.
Proof.
  intros Hb Hc Hrot p s.
  destruct (calculateMenuPosition_decision w m cur button container Hb Hc)
    as [Hup Hmax].
  pose proof (calculateMenuPosition_top_rotated w m cur button container
                Hb Hc Hrot) as Htop.
  pose proof (maxHeight_branchLocals w button container m) as Hm.
  cbv zeta in Htop, Hm. fold p in Hup, Hmax, Htop.
  set (l := branchLocals w button container m) in *.
  exists (maxHeight l). split; [exact Hmax|].
  unfold s, menuStyle. cbn [styleTop styleBottom]. rewrite Hrot.
  rewrite <- Hup in Hm.
  destruct (MenuPosition.openUpward p).
  - assert (Hle : maxHeight l <= spaceAbove l).
    { rewrite Hm. apply Q.le_min_l. }
    split; [reflexivity|]. intro blockHeight.
    eexists. split; [reflexivity|].
    intros height Hh. rewrite Htop. lra.
  - assert (Hle : maxHeight l <= spaceBelow l).
    { rewrite Hm. apply Q.le_min_l. }
    split; [reflexivity|]. eexists. split; [reflexivity|].
    intros height Hh. rewrite Htop. lra.
Qed.

Lemma X1_menu_fits_vertically_witness :
  exists h,
    styleMaxHeight
      (menuStyle (page true [] None)
         (calculateMenuPosition (page true [] None) (Some speedMenu)
            (MenuPosition.Build 0 0 CssNone false))) = Px h.
Proof.
  destruct (X1_menu_fits_vertically (page true [] None) (Some speedMenu)
              (MenuPosition.Build 0 0 CssNone false)
              (speedButton []) (playerBox []) eq_refl eq_refl eq_refl)
    as [h [Hh _]].
  exists h. exact Hh.
Defined.

(** X2: with both refs attached, a measured menu height that is not
    negative, a positive viewport (container) height and some room on at
    least one side of the trigger, the stored [maxHeight] is positive: the
    menu is never clamped away while there is room for it. *)
Theorem X2_maxHeight_positive (w : Env) (m : option HTMLElement)
  (cur : MenuPosition.t) (button container : HTMLElement) :
  buttonRef w = Some button -> containerRef w = Some container ->
  (forall e, m = Some e -> 0 <= offsetHeight e) ->
  0 < availableHeight w container ->
  let l := branchLocals w button container m in
  0 < spaceAbove l \/ 0 < spaceBelow l ->
  exists h,
    MenuPosition.maxHeight (calculateMenuPosition w m cur) = Px h /\ 0 < h.
Proof.
  intros Hb Hc Hm Havail l Hroom.
  destruct (calculateMenuPosition_decision w m cur button container Hb Hc)
    as [_ Hmax].
  fold l in Hmax. exists (maxHeight l). split; [exact Hmax|].
  assert (Hact : 0 < actualMenuHeight l).
  { unfold l. rewrite actualMenuHeight_branchLocals.
    apply or_default_positive; [reflexivity|].
    intros v Hv. destruct m as [e|]; [|discriminate].
    cbn in Hv. injection Hv as <-. now apply Hm. }
  pose proof (maxHeight_branchLocals w button container m) as Hh.
  pose proof (openUpward_branchLocals w button container m) as Hdir.
  cbv zeta in Hh, Hdir. fold l in Hh, Hdir.
  rewrite Hh. destruct (openUpward l).
  - symmetry in Hdir. apply andb_true_iff in Hdir.
    destruct Hdir as [_ Hlt]. apply Qlt_bool_iff in Hlt.
    apply Q.min_glb_lt; [|exact Hact].
    destruct Hroom as [H|H]; [exact H | lra].
  - apply Q.min_glb_lt.
    2:{ apply roundDouble_pos.
        apply Qmult_lt_0_compat; [exact Havail | exact zeroPointSeven_pos]. }
    symmetry in Hdir. apply andb_false_iff in Hdir.
    destruct Hdir as [Hge|Hge]; apply Qlt_bool_false_iff in Hge.
    + apply Qlt_le_trans with (y := Qmin (actualMenuHeight l) 200);
        [|exact Hge].
      apply Q.min_glb_lt; [exact Hact | reflexivity].
    + destruct Hroom as [H|H]; [lra | exact H].
Qed.

Lemma X2_maxHeight_positive_witness :
  exists h,
    MenuPosition.maxHeight
      (calculateMenuPosition (page false [] None) (Some speedMenu)
         (MenuPosition.Build 0 0 CssNone false)) = Px h /\ 0 < h.
Proof.
  apply (X2_maxHeight_positive (page false [] None) (Some speedMenu)
           (MenuPosition.Build 0 0 CssNone false)
           (speedButton []) (playerBox []) eq_refl eq_refl).
  - intros e He. injection He as <-. cbn. discriminate.
  - reflexivity.
  - left. reflexivity.
Defined.

(** X3: with both refs attached, 200 px of room below the trigger, or room
    for the whole menu, always opens the menu downward, whatever the room
    above. *)
Theorem X3_enough_room_below_opens_downward (w : Env)
  (m : option HTMLElement) (cur : MenuPosition.t)
  (button container : HTMLElement) :
  buttonRef w = Some button -> containerRef w = Some container ->
  let l := branchLocals w button container m in
  200 <= spaceBelow l \/ actualMenuHeight l <= spaceBelow l ->
  MenuPosition.openUpward (calculateMenuPosition w m cur) = false.
Proof.
  intros Hb Hc l Hroom.
  destruct (calculateMenuPosition_decision w m cur button container Hb Hc)
    as [Hup _].
  rewrite Hup. fold l. unfold l at 1. rewrite openUpward_branchLocals.
  fold l. apply andb_false_iff. left. apply Qlt_bool_false_iff.
  apply Q.min_le_iff. destruct Hroom as [H|H]; [right | left]; exact H.
Qed.

Lemma X3_enough_room_below_opens_downward_witness :
  MenuPosition.openUpward
    (calculateMenuPosition (pageWithTopButton true) None
       (MenuPosition.Build 0 0 CssNone true)) = false.
Proof.
  apply (X3_enough_room_below_opens_downward (pageWithTopButton true) None
           (MenuPosition.Build 0 0 CssNone true) topButton (playerBox [])
           eq_refl eq_refl).
  left. cbn. discriminate.
Defined.

(** X4: with both refs attached, the stored [left] depends neither on the
    measured menu height nor on the placement stored before: remeasuring
    the menu (the settle recomputation) never moves it sideways. *)
Theorem X4_left_independent_of_menu (w : Env) (m m' : option HTMLElement)
  (cur cur' : MenuPosition.t) (button container : HTMLElement) :
  buttonRef w = Some button -> containerRef w = Some container ->
  MenuPosition.left (calculateMenuPosition w m cur)
  = MenuPosition.left (calculateMenuPosition w m' cur').
Proof.
  intros Hb Hc. unfold calculateMenuPosition. rewrite Hb, Hc.
  destruct (isRotated w); cbn [negb]; [|reflexivity].
  destruct (accumulateOffsets container button 0 0) as [t l].
  destruct (openUpward (rotatedLocals t button container m)),
    (openUpward (rotatedLocals t button container m')); reflexivity.
Qed.

Lemma X4_left_independent_of_menu_witness :
  MenuPosition.left
    (calculateMenuPosition (page true [] None) None
       (MenuPosition.Build 0 0 CssNone false))
  = MenuPosition.left
      (calculateMenuPosition (page true [] None) (Some speedMenu)
         (MenuPosition.Build 7 7 CssNone true)).
Proof.
  exact (X4_left_independent_of_menu (page true [] None) None
           (Some speedMenu) (MenuPosition.Build 0 0 CssNone false)
           (MenuPosition.Build 7 7 CssNone true)
           (speedButton []) (playerBox []) eq_refl eq_refl).
Defined.

(** X5: the two coordinate systems are never mixed.  In normal mode the
    placement depends only on the trigger's bounding rectangle, the
    viewport height and the measured menu height (which container is
    attached, and every offset, is irrelevant); in rotated mode it does not
    depend on the viewport height. *)
Theorem X5_modes_do_not_mix (w1 w2 : Env) (m : option HTMLElement)
  (cur : MenuPosition.t) (b1 b2 c1 c2 : HTMLElement) :
  buttonRef w1 = Some b1 -> containerRef w1 = Some c1 ->
  buttonRef w2 = Some b2 -> containerRef w2 = Some c2 ->
  isRotated w1 = isRotated w2 ->
  (isRotated w1 = false ->
   getBoundingClientRect b1 = getBoundingClientRect b2 /\
   innerHeight w1 = innerHeight w2) ->
  (isRotated w1 = true -> b1 = b2 /\ c1 = c2) ->
  calculateMenuPosition w1 m cur = calculateMenuPosition w2 m cur.
Proof.
  intros Hb1 Hc1 Hb2 Hc2 Hrot Hnormal Hrotated.
  unfold calculateMenuPosition. rewrite Hb1, Hc1, Hb2, Hc2, <- Hrot.
  destruct (isRotated w1); cbn [negb].
  - destruct (Hrotated eq_refl) as [-> ->]. reflexivity.
  - destruct (Hnormal eq_refl) as [-> ->]. reflexivity.
Qed.

Lemma X5_modes_do_not_mix_witness :
  calculateMenuPosition (page false [] None) None
    (MenuPosition.Build 0 0 CssNone false)
  = calculateMenuPosition strayPage None
      (MenuPosition.Build 0 0 CssNone false).
Proof.
  apply (X5_modes_do_not_mix (page false [] None) strayPage None
           (MenuPosition.Build 0 0 CssNone false)
           (speedButton []) strayButton (playerBox []) speedMenu
           eq_refl eq_refl eq_refl eq_refl eq_refl).
  - intros _. split; reflexivity.
  - intros H. discriminate H.
Defined.

(** ** The event loop *)

Ltac step_cases w :=
  cbv -[calculateMenuPosition documentDefined menuElement
        truthy strict_not_null optional_call closest];
  destruct (documentDefined w);
  rewrite ?calculateMenuPosition_absorbs;
  try reflexivity.

(** X7: after an event that runs the open effect (mount, click, host
    toggle, rotation change), the 50 ms recomputation in an unchanged
    environment stores the placement that is already there. *)
Theorem X7_settle_in_same_env_changes_nothing (w : Env) (ev : Event)
  (st : State) :
  In ev [Mount; Click; HostToggle; RotationChange] ->
  menuPosition (step w SettleTimeout (step w ev st))
  = menuPosition (step w ev st).
Proof.
  intros Hev. destruct st as [pos fs show timer].
  cbn [In] in Hev.
  destruct Hev as [<- | [<- | [<- | [<- | []]]]];
    destruct show; step_cases w.
Qed.

Lemma X7_settle_in_same_env_changes_nothing_witness :
  menuPosition
    (step (page true [] None) SettleTimeout
       (step (page true [] None) Click (initialState false)))
  = menuPosition (step (page true [] None) Click (initialState false)).
Proof.
  apply (X7_settle_in_same_env_changes_nothing (page true [] None) Click
           (initialState false)).
  cbn. right. left. reflexivity.
Defined.

(** X8: no scroll event, whether of the viewport or of a nested element,
    opens the menu or touches the stored placement or the fullscreen
    flag; a scroll of the viewport leaves the menu closed, a scroll of a
    nested element leaves the state as it was, and so does any scroll
    while the menu is closed (no listener is registered then). *)
Theorem X8_scroll_never_opens (w : Env) (ev : Event) (st : State) :
  isScroll ev = true ->
  let st' := step w ev st in
  (showSpeedMenu st' = true -> st' = st) /\
  menuPosition st' = menuPosition st /\
  isFullscreen st' = isFullscreen st /\
  (showSpeedMenu st = false -> st' = st) /\
  (forall x y, ev = Scroll x y -> showSpeedMenu st' = false) /\
  (forall e x y, ev = ElementScroll e x y -> st' = st).
Proof.
  intros Hev. destruct st as [pos fs show timer].
  destruct ev; try discriminate Hev; destruct show; cbn;
    repeat split; try discriminate; intros; congruence.
Qed.

Lemma X8_scroll_never_opens_witness :
  menuPosition (step (page false [] None) (Scroll 0 120) openState)
  = menuPosition openState /\
  step (page false [] None) (ElementScroll speedMenu 0 40) openState
  = openState.
Proof.
  split.
  - exact (proj1 (proj2 (X8_scroll_never_opens (page false [] None)
                           (Scroll 0 120) openState eq_refl))).
  - apply (proj2 (proj2 (proj2 (proj2 (proj2 (X8_scroll_never_opens
             (page false [] None) (ElementScroll speedMenu 0 40) openState
             eq_refl))))) speedMenu 0 40).
    reflexivity.
Defined.

(** The timer is armed only while the menu is shown; every step keeps
    this. *)
Lemma step_keeps_timer_invariant (w : Env) (ev : Event) (st : State) :
  (settleTimer st = true -> showSpeedMenu st = true) ->
  settleTimer (step w ev st) = true -> showSpeedMenu (step w ev st) = true.
Proof.
  destruct st as [pos fs show timer]. cbn [settleTimer showSpeedMenu].
  intros Hinv.
  destruct ev, show, timer;
    try (specialize (Hinv eq_refl); discriminate Hinv);
    cbv -[calculateMenuPosition documentDefined menuElement
          truthy strict_not_null optional_call closest];
    intro H; try reflexivity; try discriminate H.
Qed.

Lemma run_keeps_timer_invariant (trace : list (Env * Event)) :
  forall st,
    (settleTimer st = true -> showSpeedMenu st = true) ->
    settleTimer (run trace st) = true -> showSpeedMenu (run trace st) = true.
Proof.
  induction trace as [|[w ev] trace IH]; intros st Hinv; cbn [run].
  - exact Hinv.
  - apply IH. now apply step_keeps_timer_invariant.
Qed.

(** X9: in every state reached from the initial one, a step that leaves
    the menu closed leaves the stored placement untouched; in particular a
    late 50 ms timeout never recomputes the placement of a closed menu. *)
Theorem X9_closed_menu_keeps_placement (show0 : bool)
  (trace : list (Env * Event)) (w : Env) (ev : Event) :
  let st := run trace (initialState show0) in
  showSpeedMenu (step w ev st) = false ->
  menuPosition (step w ev st) = menuPosition st.
Proof.
  intros st.
  assert (Hinv : settleTimer st = true -> showSpeedMenu st = true).
  { apply run_keeps_timer_invariant. cbn. discriminate. }
  clearbody st. destruct st as [pos fs show timer].
  cbn [settleTimer showSpeedMenu] in Hinv.
  destruct ev, show, timer;
    try (specialize (Hinv eq_refl); discriminate Hinv);
    cbv -[calculateMenuPosition documentDefined menuElement
          truthy strict_not_null optional_call closest];
    intro H; try reflexivity; try discriminate H.
Qed.

Lemma X9_closed_menu_keeps_placement_witness :
  menuPosition
    (step (pageWithTopButton false) SettleTimeout
       (run [(page true [] None, Click); (page true [] None, Scroll 0 10)]
          (initialState false)))
  = menuPosition
      (run [(page true [] None, Click); (page true [] None, Scroll 0 10)]
         (initialState false)).
Proof.
  apply (X9_closed_menu_keeps_placement false
           [(page true [] None, Click); (page true [] None, Scroll 0 10)]
           (pageWithTopButton false) SettleTimeout).
  reflexivity.
Defined.

(** ** Fullscreen tracking with the container attached *)

Lemma parentChain_unfold (e : HTMLElement) :
  parentChain e
  = e :: match parentElement e with
         | Some p => parentChain p
         | None => []
         end.
Proof. now destruct e. Qed.

Lemma closest_unfold (cls : string) (e : HTMLElement) :
  closest cls e
  = if has_class cls e then Some e
    else match parentElement e with
         | Some p => closest cls p
         | None => None
         end.
Proof. now destruct e. Qed.

(** [closest] finds an element exactly when the element or one of its
    ancestors carries the class, and what it finds carries it. *)
Lemma closest_spec (cls : string) (e : HTMLElement) :
  (closest cls e = None
   <-> forall a, In a (parentChain e) -> has_class cls a = false) /\
  (forall f, closest cls e = Some f ->
             In f (parentChain e) /\ has_class cls f = true).
Proof.
  induction e as [e _ IHp] using HTMLElement_parents_ind.
  rewrite closest_unfold, parentChain_unfold.
  destruct (has_class cls e) eqn:Hcls.
  - split.
    + split; [discriminate|]. intro H.
      rewrite (H e (or_introl eq_refl)) in Hcls. discriminate.
    + intros f Hf. injection Hf as <-. split; [now left | exact Hcls].
  - destruct (parentElement e) as [p|].
    + destruct (IHp p eq_refl) as [Hnone Hsome]. split.
      * rewrite Hnone. split.
        -- intros H a [<- | Ha]; [exact Hcls | now apply H].
        -- intros H a Ha. apply H. now right.
      * intros f Hf. destruct (Hsome f Hf) as [Hin Hc].
        split; [now right | exact Hc].
    + split.
      * split; [|reflexivity]. intros _ a [<- | []]. exact Hcls.
      * discriminate.
Qed.

(** X10: with the container ref attached, [updateFullscreen] stores [true]
    exactly when a native fullscreen element exists or the container or
    one of its ancestors carries the [is-web-fullscreen] class; the other
    state cells are left alone. *)
Theorem X10_updateFullscreen_attached (w : Env) (st : State)
  (container : HTMLElement) :
  containerRef w = Some container ->
  let st' := updateFullscreen w st in
  (isFullscreen st' = true
   <-> fullscreenElement w <> None \/
       exists a, In a (parentChain container) /\
                 has_class "is-web-fullscreen" a = true) /\
  menuPosition st' = menuPosition st /\
  showSpeedMenu st' = showSpeedMenu st /\
  settleTimer st' = settleTimer st.
Proof.
  intros Hc. cbv zeta. split; [|repeat split].
  unfold updateFullscreen, optional_call. rewrite Hc.
  cbn [setIsFullscreen isFullscreen].
  destruct (closest_spec "is-web-fullscreen" container) as [Hnone Hsome].
  rewrite orb_true_iff.
  destruct (closest "is-web-fullscreen" container) as [f|] eqn:Hcl.
  - cbn [strict_not_null]. split; [|now right].
    intros _. right. exists f. now apply Hsome.
  - cbn [strict_not_null].
    destruct (fullscreenElement w) as [fe|]; cbn [truthy]; split.
    + intros _. left. discriminate.
    + intros _. now left.
    + intros [H|H]; discriminate H.
    + intros [H | [a [Ha Hcls]]]; [now contradiction H|].
      rewrite (proj1 Hnone eq_refl a Ha) in Hcls. discriminate.
Qed.

Lemma X10_updateFullscreen_attached_witness :
  isFullscreen
    (updateFullscreen (page false ["is-web-fullscreen"%string] None)
       (initialState false)) = true.
Proof.
  apply (proj1 (X10_updateFullscreen_attached
                  (page false ["is-web-fullscreen"%string] None)
                  (initialState false)
                  (playerBox ["is-web-fullscreen"%string]) eq_refl)).
  right. exists (playerBox ["is-web-fullscreen"%string]).
  split; [now left | reflexivity].
Defined.

(** ** The list of speeds *)

Lemma menuItems_selected_count (playbackRate : Q) (speeds : list Q) :
  List.length (filter itemSelected (menuItems playbackRate speeds))
  = List.length (filter (Qeq_bool playbackRate) speeds).
Proof.
  unfold menuItems. induction speeds as [|s speeds IH]; [reflexivity|].
  cbn. destruct (Qeq_bool playbackRate s); cbn; now rewrite IH.
Qed.

Lemma filter_eq_none (playbackRate : Q) (speeds : list Q) :
  (forall s, In s speeds -> ~ playbackRate == s) ->
  filter (Qeq_bool playbackRate) speeds = [].
Proof.
  induction speeds as [|s speeds IH]; intros H; [reflexivity|].
  cbn. destruct (Qeq_bool playbackRate s) eqn:E.
  - apply Qeq_bool_iff in E. exfalso. apply (H s); [now left | exact E].
  - apply IH. intros s' Hs'. apply H. now right.
Qed.

(** X11: the menu shows one button per offered speed, in order, and the
    [i]-th button reports the [i]-th speed; a button is highlighted exactly
    when its speed equals the current rate, so with pairwise different
    speeds exactly one button is highlighted when the current rate is
    offered and none otherwise. *)
Theorem X11_menu_items (playbackRate : Q) (speeds : list Q) :
  map itemSpeed (menuItems playbackRate speeds) = speeds /\
  (forall i, clickItem playbackRate speeds i = nth_error speeds i) /\
  (forall item, In item (menuItems playbackRate speeds) ->
                (itemSelected item = true <->
                 playbackRate == itemSpeed item)) /\
  ((forall s, In s speeds -> ~ playbackRate == s) ->
   filter itemSelected (menuItems playbackRate speeds) = []) /\
  (distinctSpeeds speeds ->
   (exists s, In s speeds /\ playbackRate == s) ->
   List.length (filter itemSelected (menuItems playbackRate speeds))
   = 1%nat).
Proof.
  split; [|split; [|split; [|split]]].
  - unfold menuItems. rewrite map_map. cbn. apply map_id.
  - intro i. unfold clickItem, menuItems. rewrite nth_error_map.
    now destruct (nth_error speeds i).
  - intros item Hin. unfold menuItems in Hin. apply in_map_iff in Hin.
    destruct Hin as [s [<- _]]. cbn. apply Qeq_bool_iff.
  - intros Hnone.
    assert (Hlen : List.length (filter itemSelected
                             (menuItems playbackRate speeds)) = 0%nat).
    { rewrite menuItems_selected_count, filter_eq_none; [reflexivity|].
      exact Hnone. }
    now apply length_zero_iff_nil in Hlen.
  - intros Hdistinct Hoffered. rewrite menuItems_selected_count.
    induction Hdistinct as [|s speeds Hfresh Hdistinct IH].
    + destruct Hoffered as [s [[] _]].
    + cbn. destruct (Qeq_bool playbackRate s) eqn:E.
      * apply Qeq_bool_iff in E. cbn. rewrite filter_eq_none; [reflexivity|].
        intros s' Hs' Heq. apply (Hfresh s' Hs').
        now rewrite <- E.
      * apply IH. destruct Hoffered as [s' [[<- | Hin] Heq]].
        -- apply Qeq_bool_neq in E. contradiction.
        -- now exists s'.
Qed.

(** ** Listeners and timers *)

Lemma lifecycleInvariant_after_mount (show : bool) (w : Env) :
  lifecycleInvariant (lifecycleStep w Mount (initialState show, noResources)).
Proof.
  unfold lifecycleInvariant.
  destruct show;
    cbv -[calculateMenuPosition documentDefined menuElement
          truthy strict_not_null optional_call closest];
    repeat split; discriminate.
Qed.

Lemma lifecycleStep_keeps_invariant (w : Env) (ev : Event)
  (sr : State * Resources) :
  isMount ev = false ->
  lifecycleInvariant sr -> lifecycleInvariant (lifecycleStep w ev sr).
Proof.
  intros Hev. destruct sr as [[pos fs show timer] [fl pi sl ti fc sc tc tp]].
  unfold lifecycleInvariant at 1. cbn [fst snd].
  cbn [fullscreenListeners pollIntervals fullscreenCleanup scrollListeners
       scrollCleanup settleTimeouts timerPending timerCleanup
       settleTimer showSpeedMenu].
  intros [-> [-> [-> [-> [-> [-> [-> [-> Hinv]]]]]]]].
  unfold lifecycleInvariant.
  destruct ev; try discriminate Hev; destruct show, timer;
    try (specialize (Hinv eq_refl); discriminate Hinv);
    cbv -[calculateMenuPosition documentDefined menuElement
          truthy strict_not_null optional_call closest];
    repeat split; discriminate.
Qed.

Lemma lifecycleRun_keeps_invariant (trace : list (Env * Event)) :
  forall sr,
    noMount trace = true ->
    lifecycleInvariant sr -> lifecycleInvariant (lifecycleRun trace sr).
Proof.
  induction trace as [|[w ev] trace IH]; intros sr Hno Hinv; cbn [lifecycleRun].
  - exact Hinv.
  - unfold noMount in Hno. cbn [forallb snd] in Hno.
    apply andb_true_iff in Hno. destruct Hno as [Hev Hno].
    apply negb_true_iff in Hev.
    apply IH; [exact Hno|]. now apply lifecycleStep_keeps_invariant.
Qed.

Lemma lifecycleRun_state (trace : list (Env * Event)) :
  forall sr, fst (lifecycleRun trace sr) = run trace (fst sr).
Proof.
  induction trace as [|[w ev] trace IH]; intros sr; [reflexivity|].
  cbn [lifecycleRun run]. now rewrite IH.
Qed.

(** X12: while the component is mounted, whatever events it handles, the
    browser holds exactly one [fullscreenchange] listener and one poll
    interval of it, one scroll listener exactly while the menu is shown
    and none otherwise, and at most one pending 50 ms timeout, pending
    only while the menu is shown. *)
Theorem X12_listeners_while_mounted (show : bool) (w0 : Env)
  (trace : list (Env * Event)) :
  noMount trace = true ->
  let st := run ((w0, Mount) :: trace) (initialState show) in
  let r := snd (mountedThen show w0 trace) in
  fst (mountedThen show w0 trace) = st /\
  fullscreenListeners r = 1%nat /\
  pollIntervals r = 1%nat /\
  scrollListeners r = countOf (showSpeedMenu st) /\
  settleTimeouts r = countOf (settleTimer st) /\
  (settleTimeouts r <= scrollListeners r)%nat.
Proof.
  intros Hno st r.
  assert (Hst : fst (mountedThen show w0 trace) = st).
  { unfold mountedThen. now rewrite lifecycleRun_state. }
  pose proof (lifecycleRun_keeps_invariant trace _ Hno
                (lifecycleInvariant_after_mount show w0)) as Hinv.
  fold (mountedThen show w0 trace) in Hinv.
  unfold lifecycleInvariant in Hinv. cbv zeta in Hinv.
  fold r in Hinv. rewrite Hst in Hinv.
  destruct Hinv as [Hf [Hp [_ [Hs [_ [Ht [_ [_ Himp]]]]]]]].
  repeat (split; [assumption|]).
  rewrite Ht, Hs.
  destruct (settleTimer st); [rewrite (Himp eq_refl)|]; unfold countOf.
  - lia.
  - destruct (showSpeedMenu st); lia.
Qed.

Lemma X12_listeners_while_mounted_witness :
  scrollListeners
    (snd (mountedThen false (page true [] None)
            [(page true [] None, Click); (page true [] None, PollTick);
             (page true [] None, SettleTimeout)])) = 1%nat /\
  settleTimeouts
    (snd (mountedThen false (page true [] None)
            [(page true [] None, Click); (page true [] None, PollTick);
             (page true [] None, SettleTimeout)])) = 0%nat.
Proof.
  destruct (X12_listeners_while_mounted false (page true [] None)
              [(page true [] None, Click); (page true [] None, PollTick);
               (page true [] None, SettleTimeout)] eq_refl)
    as [_ [_ [_ [Hs [Ht _]]]]].
  split; [exact Hs | exact Ht].
Defined.

(** X13: unmounting, at any moment and with the menu open or closed,
    releases everything: no listener, interval or timeout of the component
    is left, and no cleanup is left pending. *)
Theorem X13_unmount_releases_everything (show : bool) (w0 : Env)
  (trace : list (Env * Event)) :
  noMount trace = true ->
  unmount (snd (mountedThen show w0 trace)) = noResources.
Proof.
  intros Hno.
  pose proof (lifecycleRun_keeps_invariant trace _ Hno
                (lifecycleInvariant_after_mount show w0)) as Hinv.
  fold (mountedThen show w0 trace) in Hinv.
  destruct (mountedThen show w0 trace)
    as [[pos fs sh timer] [fl pi sl ti fc sc tc tp]].
  unfold lifecycleInvariant in Hinv. cbn in Hinv.
  destruct Hinv as [-> [-> [-> [-> [-> [-> [-> [-> Himp]]]]]]]].
  destruct sh, timer; try reflexivity.
  specialize (Himp eq_refl). discriminate Himp.
Qed.

Lemma X13_unmount_releases_everything_witness :
  unmount
    (snd (mountedThen false (page true [] None)
            [(page true [] None, Click); (page true [] None, PollTick)]))
  = noResources.
Proof.
  exact (X13_unmount_releases_everything false (page true [] None)
           [(page true [] None, Click); (page true [] None, PollTick)]
           eq_refl).
Defined.

(** ** Estimated and measured menu height *)

Lemma Qlt_bool_compat_r (a x y : Q) :
  x == y -> Qlt_bool a x = Qlt_bool a y.
Proof.
  intro Hxy. apply eq_true_iff_eq. rewrite !Qlt_bool_iff, Hxy. reflexivity.
Qed.

Lemma spaces_branchLocals_any_menu (w : Env) (b c : HTMLElement)
  (m m' : option HTMLElement) :
  spaceBelow (branchLocals w b c m) = spaceBelow (branchLocals w b c m') /\
  spaceAbove (branchLocals w b c m) = spaceAbove (branchLocals w b c m').
Proof. unfold branchLocals. destruct (isRotated w); split; reflexivity. Qed.

(** X14: with both refs attached, for a menu that measures at least
    200 px the direction chosen from the measured height is the direction
    chosen from the 250 px estimate before the menu was mounted: the
    settle recomputation does not flip such a menu. *)
Theorem X14_estimate_predicts_direction (w : Env) (e : HTMLElement)
  (cur cur' : MenuPosition.t) (button container : HTMLElement) :
  buttonRef w = Some button -> containerRef w = Some container ->
  200 <= offsetHeight e ->
  MenuPosition.openUpward (calculateMenuPosition w (Some e) cur)
  = MenuPosition.openUpward (calculateMenuPosition w None cur').
Proof.
  intros Hb Hc Hh.
  destruct (calculateMenuPosition_decision w (Some e) cur button container
              Hb Hc) as [-> _].
  destruct (calculateMenuPosition_decision w None cur' button container
              Hb Hc) as [-> _].
  rewrite !openUpward_branchLocals, !actualMenuHeight_branchLocals.
  destruct (spaces_branchLocals_any_menu w button container (Some e) None)
    as [-> ->].
  f_equal. apply Qlt_bool_compat_r.
  cbn [option_map]. rewrite or_default_nonzero, or_default_undefined.
  - rewrite (Q.min_r (offsetHeight e) 200 Hh).
    rewrite (Q.min_r 250 200); [reflexivity | lra].
  - intro H0. rewrite H0 in Hh. lra.
Qed.

Lemma X14_estimate_predicts_direction_witness :
  MenuPosition.openUpward
    (calculateMenuPosition (page true [] None) (Some tallMenu)
       (MenuPosition.Build 0 0 CssNone false))
  = MenuPosition.openUpward
      (calculateMenuPosition (page true [] None) None
         (MenuPosition.Build 0 0 CssNone false)).
Proof.
  apply (X14_estimate_predicts_direction (page true [] None) tallMenu
           (MenuPosition.Build 0 0 CssNone false)
           (MenuPosition.Build 0 0 CssNone false)
           (speedButton []) (playerBox []) eq_refl eq_refl).
  cbn. lra.
Defined.
